(** * express-template: the guarded query builder and the response pipeline

    A shallow embedding of [db/models/Task/TaskMethods.js] (safeFindById,
    safeLimit, safeStartsWith, applyStaticMethods) and of the [json] method of
    [operations/response.js], together with the properties the specification
    states about them.

    JavaScript values are an inductive type, thrown errors are data, and the
    mutable receivers ([this] of a query method, [TaskSchema.statics], the
    Express response) are threaded explicitly. *)

From Stdlib Require Import QArith Ascii DecimalString.
From stdpp Require Import base strings list gmap.

Local Open Scope Z_scope.
Local Set Warnings "-register-all".

(* ===================================================================== *)
(** ** JavaScript values *)
(* ===================================================================== *)

Module JS.

(** A JavaScript number: every finite double is a rational; the two zeros
    are both [Fin q] with numerator 0. *)
Inductive jsnum : Type :=
| NaN
| Infinity (negative : bool)
| Fin (q : Q).

Inductive jsval : Type :=
| JUndefined
| JNull
| JBool (b : bool)
| JNum (n : jsnum)
| JBigInt (z : Z)
| JStr (s : string)
| JSymbol (description : string)
| JFun (fname : string) (code : nat)
| JObj (props : list (string * jsval))
| JArr (items : list jsval).

Definition of_Z (z : Z) : jsval := JNum (Fin (inject_Z z)).

(** ToBoolean. *)
Definition truthy (v : jsval) : bool :=
  match v with
  | JUndefined | JNull => false
  | JBool b => b
  | JNum NaN => false
  | JNum (Infinity _) => true
  | JNum (Fin q) => negb (Qnum q =? 0)
  | JBigInt z => negb (z =? 0)
  | JStr s => negb (String.eqb s "")
  | JSymbol _ | JFun _ _ | JObj _ | JArr _ => true
  end.

(** The [typeof] operator. *)
Definition typeof (v : jsval) : string :=
  match v with
  | JUndefined => "undefined"
  | JNull => "object"
  | JBool _ => "boolean"
  | JNum _ => "number"
  | JBigInt _ => "bigint"
  | JStr _ => "string"
  | JSymbol _ => "symbol"
  | JFun _ _ => "function"
  | JObj _ | JArr _ => "object"
  end.

Definition isArray (v : jsval) : bool :=
  match v with JArr _ => true | _ => false end.

(** Own-property lookup in a property table, first binding wins. *)
Fixpoint assoc (k : string) (props : list (string * jsval)) : option jsval :=
  match props with
  | [] => None
  | (k', v) :: rest => if String.eqb k k' then Some v else assoc k rest
  end.

(** [v.k] for the two keys the installer destructures, [name] and [fn]:
    a plain object answers from its own table, a function value carries its
    [name], every other value that can be destructured has neither. *)
Definition get_prop (v : jsval) (k : string) : jsval :=
  match v with
  | JObj props => default JUndefined (assoc k props)
  | JFun fname _ => if String.eqb k "name" then JStr fname else JUndefined
  | _ => JUndefined
  end.

(** The names every ordinary object inherits from [Object.prototype]. *)
Definition Object_prototype_keys : list string :=
  [ "constructor"; "__defineGetter__"; "__defineSetter__"; "hasOwnProperty";
    "__lookupGetter__"; "__lookupSetter__"; "isPrototypeOf";
    "propertyIsEnumerable"; "toString"; "valueOf"; "__proto__";
    "toLocaleString" ].

(** An ordinary object ([{}] and what is assigned into it): its own
    properties and its [[Prototype]] slot, [None] while that is still
    [Object.prototype]. *)
Record object : Type := mkObject {
  own : gmap string jsval;
  proto_override : option jsval
}.

Definition empty_object : object :=
  {| own := ∅; proto_override := None |}.

Definition is_object_value (v : jsval) : bool :=
  match v with
  | JFun _ _ | JObj _ | JArr _ => true
  | _ => false
  end.

(** [o[k] = v] on an ordinary object whose chain ends in [Object.prototype]:
    the key [__proto__] reaches the inherited setter, which replaces the
    prototype when given an object or [null] and ignores anything else;
    every other key becomes (or overwrites) an own property. *)
Definition set_prop (o : object) (k : string) (v : jsval) : object :=
  if String.eqb k "__proto__" then
    if is_object_value v || (match v with JNull => true | _ => false end)
    then {| own := own o; proto_override := Some v |}
    else o
  else {| own := <[k := v]> (own o); proto_override := proto_override o |}.

(** [k in o] for an object that still has [Object.prototype] as prototype:
    HasProperty walks the chain, so inherited names count as well. *)
Definition has_property (k : string) (own_keys : gset string) : bool :=
  bool_decide (k ∈ own_keys) || bool_decide (k ∈ Object_prototype_keys).

End JS.

Import JS.

(* ===================================================================== *)
(** ** Errors and completions *)
(* ===================================================================== *)

(** The error classes of [utils/error], kept with their constructor
    arguments, and the engine's own [TypeError]. *)
Inductive error : Type :=
| BadRequestError (message : string)
| NotFoundError (message : string)
| InvalidParamTypeError (param expected received : string)
| MissingParamError (param : string)
| TypeError (message : string)
| Thrown (v : jsval).

Inductive error_kind : Type :=
| BadRequest | NotFound | TypeMismatch | MissingParam | Engine | Other.

Definition kind_of (e : error) : error_kind :=
  match e with
  | BadRequestError _ => BadRequest
  | NotFoundError _ => NotFound
  | InvalidParamTypeError _ _ _ => TypeMismatch
  | MissingParamError _ => MissingParam
  | TypeError _ => Engine
  | Thrown _ => Other
  end.

(** How a synchronous call ends. *)
Inductive completion (A : Type) : Type :=
| Normal (a : A)
| Throw (e : error).
Arguments Normal {A} a.
Arguments Throw {A} e.

(** How the promise of an [async] call settles. *)
Inductive promise (A : Type) : Type :=
| Fulfilled (a : A)
| Rejected (e : error).
Arguments Fulfilled {A} a.
Arguments Rejected {A} e.

Definition settle {A} (c : completion A) : promise A :=
  match c with
  | Normal a => Fulfilled a
  | Throw e => Rejected e
  end.

(** Computations over a mutable receiver or world [S] that may throw. *)
Definition M (S A : Type) : Type := S -> S * completion A.

Definition ret {S A} (a : A) : M S A := fun s => (s, Normal a).
Definition throw {S A} (e : error) : M S A := fun s => (s, Throw e).
Definition bind {S A B} (m : M S A) (k : A -> M S B) : M S B :=
  fun s =>
    match m s with
    | (s', Normal a) => k a s'
    | (s', Throw e) => (s', Throw e)
    end.

Declare Scope js_scope.
Delimit Scope js_scope with js.
Notation "x <- m ;; k" := (bind m (fun x => k))
  (at level 100, m at next level, right associativity) : js_scope.
Notation "m ;;; k" := (bind m (fun _ => k))
  (at level 100, right associativity) : js_scope.

(* ===================================================================== *)
(** ** Regular expressions, as far as a prefix filter needs them *)
(* ===================================================================== *)

Module Regex.

(** [new RegExp(source, flags)]. *)
Record RegExp : Type := mkRegExp { source : string; flags : string }.

(** ECMAScript's SyntaxCharacter: [^ $ \ . * + ? ( ) [ ] { } |]. *)
Definition SyntaxCharacter (c : ascii) : bool :=
  bool_decide (c ∈ [ "^"; "$"; "\"; "."; "*"; "+"; "?"; "("; ")"; "[";
                     "]"; "{"; "}"; "|" ]%char).

(** The patterns of the fragment: a sequence of literal characters and
    wildcards, optionally anchored at the start of the input. *)
Inductive atom : Type :=
| Lit (c : ascii)
| AnyChar.

Record pattern : Type := mkPattern { anchored : bool; atoms : list atom }.

(** Reading a pattern source. A backslash followed by a syntax character is
    that character taken literally; a dot is the wildcard; an ordinary
    character stands for itself. Any other use of a syntax character (a
    quantifier, a group, a class, an alternative, an interior assertion)
    and any other escape is outside the fragment, [None]. *)
Fixpoint parse_atoms (escaped : bool) (s : string) : option (list atom) :=
  match s with
  | EmptyString => if escaped then None else Some []
  | String c rest =>
      if escaped then
        if SyntaxCharacter c then cons (Lit c) <$> parse_atoms false rest
        else None
      else if Ascii.eqb c "\" then parse_atoms true rest
      else if Ascii.eqb c "." then cons AnyChar <$> parse_atoms false rest
      else if SyntaxCharacter c then None
      else cons (Lit c) <$> parse_atoms false rest
  end.

Definition parse (src : string) : option pattern :=
  match src with
  | String "^" rest => mkPattern true <$> parse_atoms false rest
  | _ => mkPattern false <$> parse_atoms false src
  end.

(** Canonicalize under the [i] flag, on the ASCII letters. *)
Definition upper (c : ascii) : ascii :=
  let n := Ascii.nat_of_ascii c in
  if ((97 <=? n) && (n <=? 122))%nat then Ascii.ascii_of_nat (n - 32) else c.

Definition same_char (ignoreCase : bool) (a b : ascii) : bool :=
  if ignoreCase then Ascii.eqb (upper a) (upper b) else Ascii.eqb a b.

Definition LineTerminator (c : ascii) : bool :=
  let n := Ascii.nat_of_ascii c in ((n =? 10) || (n =? 13))%nat.

Definition atom_matches (ignoreCase : bool) (a : atom) (c : ascii) : bool :=
  match a with
  | Lit l => same_char ignoreCase l c
  | AnyChar => negb (LineTerminator c)
  end.

(** The atoms match a prefix of [s]. *)
Fixpoint match_here (ignoreCase : bool) (p : list atom) (s : string) : bool :=
  match p, s with
  | [], _ => true
  | _ :: _, EmptyString => false
  | a :: p', String c s' =>
      atom_matches ignoreCase a c && match_here ignoreCase p' s'
  end.

(** The atoms match somewhere in [s]. *)
Fixpoint match_anywhere (ignoreCase : bool) (p : list atom) (s : string) : bool :=
  match_here ignoreCase p s ||
  match s with
  | EmptyString => false
  | String _ s' => match_anywhere ignoreCase p s'
  end.

Fixpoint has_flag (f : ascii) (fl : string) : bool :=
  match fl with
  | EmptyString => false
  | String c rest => Ascii.eqb c f || has_flag f rest
  end.

(** [re.test(s)]; [None] when the source is outside the fragment. *)
Definition test (re : RegExp) (s : string) : option bool :=
  p ← parse (source re);
  let ic := has_flag "i" (flags re) in
  Some (if anchored p then match_here ic (atoms p) s
        else match_anywhere ic (atoms p) s).

(** [s] starts with [prefix], letters compared without regard to case. *)
Fixpoint starts_with_ci (prefix s : string) : bool :=
  match prefix, s with
  | EmptyString, _ => true
  | String _ _, EmptyString => false
  | String a prefix', String b s' =>
      Ascii.eqb (upper a) (upper b) && starts_with_ci prefix' s'
  end.

(** The atoms of a pattern that spells [s] literally. *)
Fixpoint literal_atoms (s : string) : list atom :=
  match s with
  | EmptyString => []
  | String c rest => Lit c :: literal_atoms rest
  end.

End Regex.

Import Regex.

(* ===================================================================== *)
(** ** The document store, as the query methods see it *)
(* ===================================================================== *)

Module Store.

Record document : Type := mkDocument {
  doc_id : string;
  doc_fields : gmap string jsval
}.

(** A Mongoose query under construction: the conditions accumulated by
    [where], keyed by path, and the ceiling set by [limit]. *)
Record query : Type := mkQuery {
  conditions : gmap string RegExp;
  ceiling : option jsnum
}.

(** [Model.find({})]. *)
Definition find_all : query := {| conditions := ∅; ceiling := None |}.

(** The receiver itself, which every chainable method returns. *)
Inductive handle : Type := This.

(** [this.where(key, re)]: records the condition and returns [this]. *)
Definition where_ (key : string) (re : RegExp) : M query handle :=
  fun q => ({| conditions := <[key := re]> (conditions q);
               ceiling := ceiling q |}, Normal This).

(** [this.limit(n)]: records the ceiling and returns [this]. *)
Definition limit (n : jsnum) : M query handle :=
  fun q => ({| conditions := conditions q; ceiling := Some n |}, Normal This).

(** A document satisfies a condition when the field is a string the
    expression accepts. *)
Definition satisfies (d : document) (key : string) (re : RegExp) : bool :=
  match doc_fields d !! key with
  | Some (JStr s) => bool_decide (test re s = Some true)
  | _ => false
  end.

Definition selected (q : query) (d : document) : bool :=
  forallb (fun kr => satisfies d kr.1 kr.2) (map_to_list (conditions q)).

(** A ceiling that is a positive integer keeps that many documents. *)
Definition ceiling_count (n : jsnum) : option nat :=
  match n with
  | Fin q =>
      if (0 <? Qnum q) && (Qnum q mod Z.pos (Qden q) =? 0)
      then Some (Z.to_nat (Qnum q / Z.pos (Qden q)))
      else None
  | _ => None
  end.

Definition cap (c : option jsnum) (ds : list document) : list document :=
  match c ≫= ceiling_count with
  | Some k => take k ds
  | None => ds
  end.

(** [query.exec()] against the documents of the collection. *)
Definition exec (q : query) (coll : list document) : list document :=
  cap (ceiling q) (List.filter (selected q) coll).

(** A schema: the declared paths (the own keys of [schema.paths]) and the
    [statics] object. *)
Record schema : Type := mkSchema {
  paths : gset string;
  statics : object
}.

Record model : Type := mkModel { model_schema : schema }.

(** [new Schema({ description: {...} })] of TaskModel.js; Mongoose adds
    the paths [_id] and [__v]. *)
Definition TaskSchema : schema :=
  {| paths := {[ "description"; "_id"; "__v" ]}; statics := empty_object |}.

Definition Task : model := {| model_schema := TaskSchema |}.

End Store.

Import Store.

(* ===================================================================== *)
(** ** db/models/Task/TaskMethods.js *)
(* ===================================================================== *)

Module TaskMethods.

(** [str.replace(/[.*+?^${}()|[\]\\]/g, '\\$&')]: the characters of the
    class, and the replacement of each by a backslash and itself. *)
Definition escaped_class (c : ascii) : bool :=
  bool_decide (c ∈ [ "."; "*"; "+"; "?"; "^"; "$"; "{"; "}"; "("; ")";
                     "|"; "["; "]"; "\" ]%char).

Fixpoint escapeRegex (str : string) : string :=
  match str with
  | EmptyString => EmptyString
  | String c rest =>
      if escaped_class c then String "\" (String c (escapeRegex rest))
      else String c (escapeRegex rest)
  end.

(** What [safeFindById] can observe and change: the collection behind the
    model and the lookups sent to it so far. *)
Record world (collection : Type) : Type := mkWorld {
  stored : collection;
  lookups : list string
}.
Arguments mkWorld {collection} stored lookups.
Arguments stored {collection} w.
Arguments lookups {collection} w.

Section Collaborators.

(** [Types.ObjectId.isValid]. *)
Variable ObjectId_isValid : string -> bool.

(** The collection behind the model and what [findById(id).exec()]
    resolves to on it: a document or [null]. *)
Variable collection : Type.
Variable findById_exec : collection -> string -> option document.

(** [taskSchema.limit.safeParse] and [taskSchema.searchParam.safeParse]
    of validators/exampleSchema: [Some data] on success. *)
Variable limit_safeParse : jsval -> option jsnum.
Variable searchParam_safeParse : jsval -> option string.

Definition findById (id : string) : M (world collection) (option document) :=
  fun w => ({| stored := stored w; lookups := lookups w ++ [id] |},
            Normal (findById_exec (stored w) id)).

Definition safeFindById_body (id : string) : M (world collection) document :=
  (if negb (ObjectId_isValid id)
   then throw (BadRequestError "Invalid ID format")
   else
     document <- findById id ;;
     match document with
     | None => throw (NotFoundError "Task not found")
     | Some d => ret d
     end)%js.

(** [async function safeFindById(id)]. *)
Definition safeFindById (id : string) (w : world collection)
  : world collection * promise document :=
  let (w', c) := safeFindById_body id w in (w', settle c).

(** [function safeLimit(n)], [this] being the query. *)
Definition safeLimit (n : jsval) : M query handle :=
  if negb (truthy n) then ret This
  else
    match limit_safeParse n with
    | None => throw (BadRequestError "Invalid Limit")
    | Some data => limit data
    end.

(** [function safeStartsWith(searchParam, key, Task)]. *)
Definition safeStartsWith (searchParam : jsval) (key : string) (Task : model)
  : M query handle :=
  if negb (truthy searchParam) then ret This
  else
    match searchParam_safeParse searchParam with
    | None => throw (BadRequestError "Invalid searchParam")
    | Some data =>
        if negb (has_property key (paths (model_schema Task)))
        then throw (BadRequestError ("No Property " +:+ key +:+ " found"))
        else where_ key (mkRegExp ("^" +:+ escapeRegex data) "i")
    end.

End Collaborators.

(** [const { name, fn } of methods]: destructuring [undefined] or [null]
    throws, any other value yields its two properties. *)
Definition destructure (entry : jsval) : completion (jsval * jsval) :=
  match entry with
  | JUndefined | JNull =>
      Throw (TypeError "Cannot destructure property 'name' of entry")
  | _ => Normal (get_prop entry "name", get_prop entry "fn")
  end.

(** The text of [`${Function}`]. *)
Definition Function_text : string := "function Function() { [native code] }".

(** [TaskSchema.statics[name] = fn]. *)
Definition install (name : string) (fn : jsval) (s : schema) : schema :=
  {| paths := paths s; statics := set_prop (statics s) name fn |}.

(** One turn of the loop body; [Normal] carries the schema after the
    assignment. Past the three tests [name] is a string, so the last
    alternative of the inner match is never taken. *)
Definition apply_entry (entry : jsval) (s : schema) : completion schema :=
  match destructure entry with
  | Throw e => Throw e
  | Normal (name, fn) =>
      if negb (String.eqb (typeof fn) "function")
         && negb (String.eqb (typeof name) "string")
      then Throw (InvalidParamTypeError "method" "{fn: function, name: string}"
                    ("name: " +:+ Function_text +:+ " and fn: " +:+ Function_text))
      else if negb (String.eqb (typeof name) "string")
      then Throw (InvalidParamTypeError "method" "string" (typeof name))
      else if negb (String.eqb (typeof fn) "function")
      then Throw (InvalidParamTypeError "method" "function" (typeof name))
      else
        match name with
        | JStr k => Normal (install k fn s)
        | _ => Normal s
        end
  end.

(** The [for ... of] loop over the entries, the schema being mutated in
    place: what was assigned stays assigned when a later turn throws. *)
Fixpoint apply_entries (entries : list jsval) : M schema unit :=
  match entries with
  | [] => ret tt
  | entry :: rest =>
      fun s =>
        match apply_entry entry s with
        | Throw e => (s, Throw e)
        | Normal s' => apply_entries rest s'
        end
  end.

(** [function applyStaticMethods(TaskSchema, methods)]; [None] is an
    absent schema argument. The state is the schema object, if any. *)
Definition applyStaticMethods (TaskSchema : option schema) (methods : jsval)
  : option schema * completion unit :=
  if negb (isArray methods)
  then (TaskSchema, Throw (InvalidParamTypeError "methods" "Array" (typeof methods)))
  else
    match TaskSchema with
    | None => (None, Throw (MissingParamError "TaskSchema"))
    | Some s =>
        if negb (truthy methods)
        then (Some s, Throw (MissingParamError "methods"))
        else
          match methods with
          | JArr entries =>
              let (s', c) := apply_entries entries s in (Some s', c)
          | _ => (Some s, Throw (TypeError "methods is not iterable"))
          end
    end.

(** An entry the installer accepts: it can be destructured, its [name] is a
    string and its [fn] a function. *)
Definition well_formed (entry : jsval) : option (string * jsval) :=
  match destructure entry with
  | Normal (JStr k, JFun f c) => Some (k, JFun f c)
  | _ => None
  end.

(** The assignments [statics[name] = fn], performed from left to right. *)
Definition install_all (named : list (string * jsval)) (s : schema) : schema :=
  fold_left (fun acc kf => install kf.1 kf.2 acc) named s.


End TaskMethods.

Import TaskMethods.

(* ===================================================================== *)
(** ** operations/pipe.js and operations/response.js *)
(* ===================================================================== *)

Module Response.

(** What a run leaves behind for an observer: every call of a step, every
    call of the terminal consumer, and every body written to the Express
    response by [res.status(code).json(body)]. *)
Inductive event : Type :=
| StepCall (index : nat) (input : jsval)
| TerminalCall (input : jsval)
| Sent (status : jsval) (body : jsval).

Definition trace : Type := list event.

Definition emit (e : event) : M trace unit := fun t => (t ++ [e], Normal tt).

(** A transformation step applied to a value returns a plain value,
    returns a promise, or throws. *)
Inductive step_result : Type :=
| Plain (v : jsval)
| Pending (p : promise jsval)
| Raises (e : error).

Definition step : Type := jsval -> step_result.

(** The value a step hands to its successor, or its failure. *)
Definition awaited (r : step_result) : completion jsval :=
  match r with
  | Plain v => Normal v
  | Pending (Fulfilled v) => Normal v
  | Pending (Rejected e) => Throw e
  | Raises e => Throw e
  end.

(** Modelled from the spec: the fold of [createPipeOps().create] (pipe.js is
    not among the sources). The initial value goes through each step in
    sequence order, a step that returns a promise being awaited; a step
    that fails stops the run. *)
Fixpoint run_steps (index : nat) (steps : list step) (v : jsval) : M trace jsval :=
  match steps with
  | [] => ret v
  | f :: rest =>
      (emit (StepCall index v) ;;;
       fun t =>
         match awaited (f v) with
         | Normal w => run_steps (S index) rest w t
         | Throw e => (t, Throw e)
         end)%js
  end.

(** Modelled from the spec: [createPipeOps().create({ initialValue, steps },
    terminalConsumer)] (pipe.js is not among the sources): folds the value
    through the steps, then invokes the terminal consumer with the result
    and returns what it returns; a failure reaches the caller as a failed
    asynchronous result. *)
Definition create {R} (initialValue : jsval) (steps : list step)
    (terminalConsumer : jsval -> M trace R) (t : trace) : trace * promise R :=
  let (t', c) :=
    (v <- run_steps 0 steps initialValue ;;
     emit (TerminalCall v) ;;;
     terminalConsumer v)%js t in
  (t', settle c).

(** The Express response object, returned by its own chainable methods. *)
Inductive response : Type := Res.

(** [res.status(statusCode).json(body)]. *)
Definition res_status_json (statusCode body : jsval) : M trace response :=
  (emit (Sent statusCode body) ;;; ret Res)%js.

(** The [pipeCallBacks] option: left out, [null], or an array of steps. *)
Inductive callbacks : Type :=
| NoCallbacks
| NullCallbacks
| Callbacks (fs : list step).

(** The options object of [json]; a field that is [JUndefined] (and
    [NoCallbacks]) takes its default in the parameter list. *)
Record json_options : Type := mkOptions {
  data : jsval;
  statusCode : jsval;
  success : jsval;
  pipeCallBacks : callbacks
}.

Definition or_default (d v : jsval) : jsval :=
  match v with JUndefined => d | _ => v end.

(** [pipeCallBacks?.length], as a truth value. *)
Definition has_length (cb : callbacks) : bool :=
  match cb with
  | Callbacks (_ :: _) => true
  | _ => false
  end.

Definition callbacks_list (cb : callbacks) : list step :=
  match cb with Callbacks fs => fs | _ => [] end.

(** What [json] returns: the promise of the pipeline, or the response. *)
Inductive json_result : Type :=
| Piped (p : promise response)
| Direct (c : completion response).

(** [json({ res, data, statusCode = 200, success = true, pipeCallBacks = [] })].
    The call [create({ arrayStore: data, runLast: pipeCallBacks }, consumer)]
    hands [data] over as the initial value and the callbacks as the steps. *)
Definition json (o : json_options) (t : trace) : trace * json_result :=
  let data := data o in
  let statusCode := or_default (of_Z 200) (statusCode o) in
  let success := or_default (JBool true) (success o) in
  let pipeCallBacks :=
    match pipeCallBacks o with NoCallbacks => Callbacks [] | cb => cb end in
  if has_length pipeCallBacks
  then
    let (t', p) :=
      create data (callbacks_list pipeCallBacks)
        (fun pipeData =>
           res_status_json statusCode
             (JObj [("success", success); ("pipeData", pipeData);
                    ("statusCode", statusCode)])) t in
    (t', Piped p)
  else
    let (t', c) :=
      res_status_json statusCode
        (JObj [("success", success); ("data", data);
               ("statusCode", statusCode)]) t in
    (t', Direct c).

(** The values the terminal consumer was called with, in order. *)
Definition terminal_calls (t : trace) : list jsval :=
  omap (fun e => match e with TerminalCall v => Some v | _ => None end) t.

(** The composition [fn(...f1(v))], when every step yields a value. *)
Fixpoint compose_steps (steps : list step) (v : jsval) : completion jsval :=
  match steps with
  | [] => Normal v
  | f :: rest =>
      match awaited (f v) with
      | Normal w => compose_steps rest w
      | Throw e => Throw e
      end
  end.

(** The inputs the steps receive when run in order from [v]: the first gets
    [v], each later one the output of its predecessor, up to and including
    the first step that fails. *)
Fixpoint chain (index : nat) (steps : list step) (v : jsval) : list (nat * jsval) :=
  match steps with
  | [] => []
  | f :: rest =>
      (index, v) ::
      match awaited (f v) with
      | Normal w => chain (S index) rest w
      | Throw _ => []
      end
  end.

Definition step_events (calls : list (nat * jsval)) : trace :=
  map (fun call => StepCall call.1 call.2) calls.

(** The body [json] writes: [{ success, <key>, statusCode }]. *)
Definition body (success : jsval) (key : string) (payload statusCode : jsval) : jsval :=
  JObj [("success", success); (key, payload); ("statusCode", statusCode)].

End Response.

Import Response.

(* ===================================================================== *)
(** ** Collaborators the sources do not contain *)
(* ===================================================================== *)

Module Reference.

Definition is_hex_digit (c : ascii) : bool :=
  let n := Ascii.nat_of_ascii c in
  (((48 <=? n) && (n <=? 57)) || ((65 <=? n) && (n <=? 70))
   || ((97 <=? n) && (n <=? 102)))%nat.

Fixpoint all_chars (p : ascii -> bool) (s : string) : bool :=
  match s with
  | EmptyString => true
  | String c rest => p c && all_chars p rest
  end.

(** Modelled from the spec: the store's native identifier check ("a
    24-hex-character or equivalent format"), which belongs to the store. *)
Definition ObjectId_isValid (id : string) : bool :=
  (String.length id =? 24)%nat && all_chars is_hex_digit id.

(** A collection held as a list, looked up by identifier. *)
Definition findById_exec (coll : list document) (id : string) : option document :=
  List.find (fun d => String.eqb (doc_id d) id) coll.

Definition is_integer (q : Q) : bool := Qnum q mod Z.pos (Qden q) =? 0.

(** Modelled from the spec: [taskSchema.limit] of validators/exampleSchema,
    which is not among the sources ("positive integer within bounds"); the
    upper bound is left open. Success carries the number itself. *)
Definition limit_safeParse (bound : Z) (v : jsval) : option jsnum :=
  match v with
  | JNum (Fin q) =>
      if is_integer q && (0 <? Qnum q) && (Qnum q / Z.pos (Qden q) <=? bound)
      then Some (Fin q) else None
  | _ => None
  end.

(** Modelled from the spec: [taskSchema.searchParam] of
    validators/exampleSchema, which is not among the sources ("a string
    rule"). Success carries the string itself. *)
Definition searchParam_safeParse (v : jsval) : option string :=
  match v with
  | JStr s => Some s
  | _ => None
  end.

Definition task (id description : string) : document :=
  {| doc_id := id; doc_fields := {[ "description" := JStr description ]} |}.

(** The three tasks of the specification's scenario. *)
Definition scenario : list document :=
  [ task "64b7f0c2a1d3e4f5a6b7c8d1" "Alpha task";
    task "64b7f0c2a1d3e4f5a6b7c8d2" "Alpha beta";
    task "64b7f0c2a1d3e4f5a6b7c8d3" "Beta task" ].

Definition one_point_five : jsval := JNum (Fin (Qmake 3 2)).

(** Sample steps: append a mark to a string, or fail. *)
Definition mark (m : string) : step :=
  fun v => match v with
           | JStr s => Plain (JStr (s +:+ m))
           | _ => Plain v
           end.
Definition mark_later (m : string) : step :=
  fun v => match v with
           | JStr s => Pending (Fulfilled (JStr (s +:+ m)))
           | _ => Pending (Fulfilled v)
           end.
Definition failing (e : error) : step := fun _ => Raises e.
Definition rejecting (e : error) : step := fun _ => Pending (Rejected e).

Definition validFn : jsval := JFun "validFn" 0.

End Reference.

(* ===================================================================== *)
(** ** utils/controllerUtils.js *)
(* ===================================================================== *)

Module ControllerUtils.

(** What the functions of this layer throw: a [DependencyError], an
    [InvalidParamTypeError] whose first argument is the offending value
    itself, a plain [Error], or an error of the layers below. *)
Inductive failure : Type :=
| DependencyError (name message : string)
| InvalidParamType (param : jsval) (expected received : string)
| PlainError (message : string)
| Uncaught (e : error).

Inductive result (A : Type) : Type :=
| Returned (a : A)
| Failed (f : failure).
Arguments Returned {A} a.
Arguments Failed {A} f.

(** The property key of an array index. *)
Definition index_key (i : nat) : string :=
  DecimalString.NilZero.string_of_uint (Nat.to_uint i).

(** [Object.entries(object)] for the values whose [typeof] is [object]:
    the property table of an object, the indexed elements of an array. *)
Definition entries (object : jsval) : list (string * jsval) :=
  match object with
  | JObj props => props
  | JArr items => imap (fun i v => (index_key i, v)) items
  | _ => []
  end.

(** [fields.includes(key)] for a string [key]: SameValueZero finds it only
    among the strings of the array. *)
Definition includes (fields : list jsval) (key : string) : bool :=
  existsb (fun f => match f with JStr s => String.eqb s key | _ => false end)
    fields.

(** Defining [key] on a table: a key that is present keeps its place and
    takes the new value, a new key goes to the end. *)
Fixpoint upsert (key : string) (v : jsval) (table : list (string * jsval))
  : list (string * jsval) :=
  match table with
  | [] => [(key, v)]
  | (k, w) :: rest =>
      if String.eqb k key then (k, v) :: rest else (k, w) :: upsert key v rest
  end.

(** [Object.fromEntries(pairs)]. *)
Definition fromEntries (pairs : list (string * jsval)) : jsval :=
  JObj (fold_left (fun table kv => upsert kv.1 kv.2 table) pairs []).

Definition is_null (v : jsval) : bool :=
  match v with JNull => true | _ => false end.

(** [filterFields(fields)(object)], both arguments with their defaults
    ([[]] and [{}]) when [undefined]. *)
Definition filterFields (fields object : jsval) : result jsval :=
  let fields := or_default (JArr []) fields in
  let object := or_default (JObj []) object in
  if negb (isArray fields)
  then Failed (InvalidParamType fields "array" (typeof fields))
  else if negb (String.eqb (typeof object) "object") || is_null object
  then Failed (InvalidParamType object "object" (typeof object))
  else
    match fields with
    | JArr [] => Returned object
    | JArr fs =>
        Returned (fromEntries
                    (List.filter (fun kv => includes fs kv.1) (entries object)))
    | _ => Returned object
    end.

(** The [Task] dependency: some value, or a function object that carries
    own properties, as a Mongoose model does. *)
Inductive task_dependency : Type :=
| TaskValue (v : jsval)
| ModelFunction (props : list (string * jsval)).

Definition typeof_task (T : task_dependency) : string :=
  match T with
  | TaskValue v => typeof v
  | ModelFunction _ => "function"
  end.

(** [Task.findById], read once [Task] is known to be a function. *)
Definition Task_findById (T : task_dependency) : jsval :=
  match T with
  | TaskValue v => get_prop v "findById"
  | ModelFunction props => default JUndefined (assoc "findById" props)
  end.

(** [function handleDependencyError(helpers, Task, schemas)]. *)
Definition handleDependencyError (helpers : jsval) (T : task_dependency)
    (schemas : jsval) : result unit :=
  if negb (String.eqb (typeof helpers) "object") || isArray helpers
  then Failed (DependencyError "helpers"
                 ("Expected an object, received " +:+ Function_text))
  else if negb (String.eqb (typeof_task T) "function")
          || negb (truthy (Task_findById T))
  then Failed (DependencyError "Task"
                 ("Expected a valid Mongoose model, received " +:+ Function_text))
  else if negb (String.eqb (typeof schemas) "object")
  then Failed (DependencyError "schemas"
                 ("Expected a schema object, received " +:+ Function_text))
  else Returned tt.

(** The object handed to a controller's [inject]; a property left out is
    [undefined]. *)
Record dependencies : Type := mkDependencies {
  dep_helpers : jsval;
  dep_Task : task_dependency;
  dep_schemas : jsval
}.

(** The tasks controller once its dependencies are accepted. *)
Inductive tasks_controller : Type := TasksController.

(** [inject(dependencies)] of the tasks controller, up to the object it
    returns: the dependencies are validated, then [helpers] is
    destructured. *)
Definition tasks_inject (d : dependencies) : result tasks_controller :=
  match handleDependencyError (dep_helpers d) (dep_Task d) (dep_schemas d) with
  | Failed f => Failed f
  | Returned _ =>
      match dep_helpers d with
      | JUndefined | JNull =>
          Failed (Uncaught (TypeError "Cannot destructure property 'response' of helpers"))
      | _ => Returned TasksController
      end
  end.

(** [controllerResolver(name, action, helpers)], the loaded module being
    given by its [inject] export ([None] when that is no function) and by
    the actions its controller has. The handler it returns wraps the
    action. *)
Inductive handler (C : Type) : Type := Handler (controller : C) (action : string).
Arguments Handler {C} controller action.

Definition controllerResolver {C : Type} (inject : option (dependencies -> result C))
    (has_action : C -> string -> bool) (name action : string) (helpers : jsval)
  : result (handler C) :=
  match inject with
  | None =>
      Failed (PlainError ("Controller " +:+ String "034" (name +:+
                String "034" " must export an " +:+ String "034" ("inject" +:+
                String "034" " function."))))
  | Some inject =>
      match inject {| dep_helpers := helpers;
                      dep_Task := TaskValue JUndefined;
                      dep_schemas := JUndefined |} with
      | Failed f => Failed f
      | Returned controller =>
          if negb (has_action controller action)
          then Failed (PlainError ("Controller " +:+ String "034" (name +:+
                         String "034" " does not have method " +:+
                         String "034" (action +:+ String "034" "."))))
          else Returned (Handler controller action)
      end
  end.

(** What is awaited: a plain value or a promise. *)
Inductive awaitable : Type :=
| Value (v : jsval)
| Promised (p : promise jsval).

Definition await (a : awaitable) : completion jsval :=
  match a with
  | Value v => Normal v
  | Promised (Fulfilled v) => Normal v
  | Promised (Rejected e) => Throw e
  end.

(** [res.headersSent]: a body has been written to the response. *)
Definition headersSent (t : trace) : bool :=
  existsb (fun e => match e with Sent _ _ => true | _ => false end) t.

(** [response.ok({ res, data })] and [response.created({ res, data })] of
    operations/response.js: [base.json] with the status code fixed. *)
Definition ok (data : jsval) : trace -> trace * json_result :=
  json {| data := data; statusCode := of_Z 200; success := JUndefined;
          pipeCallBacks := NoCallbacks |}.

Definition created (data : jsval) : trace -> trace * json_result :=
  json {| data := data; statusCode := of_Z 201; success := JUndefined;
          pipeCallBacks := NoCallbacks |}.

(** How a call of the function [createHandleReturn] builds ends. *)
Inductive handled (R : Type) : Type :=
| Skipped
| Answered (r : json_result)
| Refused (r : R).
Arguments Skipped {R}.
Arguments Answered {R} r.
Arguments Refused {R} r.

Section HandleReturn.

(** [error.throwNotFound(res)] and [error.throwCustom(res, err)] of
    operations/error, which is not among the sources: any actions on the
    response. *)
Variable R : Type.
Variable throwNotFound : M trace R.
Variable throwCustom : error -> M trace R.

(** The [catch] clause. *)
Definition recover (err : error) (t : trace) : trace * promise (handled R) :=
  let (t', c) := throwCustom err t in
  (t', settle (match c with
               | Normal r => Normal (Refused r)
               | Throw e => Throw e
               end)).

(** [createHandleReturn(error, response)(res, dataPromise)]. *)
Definition handleReturn (dataPromise : awaitable) (t : trace)
  : trace * promise (handled R) :=
  if headersSent t then (t, Fulfilled Skipped)
  else
    match await dataPromise with
    | Throw err => recover err t
    | Normal data =>
        if negb (truthy data)
        then
          match throwNotFound t with
          | (t', Normal r) => (t', Fulfilled (Refused r))
          | (t', Throw err) => recover err t'
          end
        else
          match ok data t with
          | (t', Direct (Throw err)) => recover err t'
          | (t', r) => (t', Fulfilled (Answered r))
          end
    end.

End HandleReturn.

End ControllerUtils.

Import ControllerUtils.

(* ===================================================================== *)
(** ** The tasks controller *)
(* ===================================================================== *)

Module TasksController.

(** What a builder method returns: the builder itself, or the promise of
    the answer it has started. The response is given as it is once that
    promise has settled. *)
Inductive chained (R : Type) : Type :=
| Builder
| Settled (p : promise (handled R)).
Arguments Builder {R}.
Arguments Settled {R} p.

Section Injected.

(** The injected dependencies: the [Task] model with its collaborators,
    and the [error] helpers. [doc_value] is a document as the value put in
    the response; [exec_query] is what [query.exec()] settles to. *)
Variable isValid : string -> bool.
Variable collection : Type.
Variable lookup : collection -> string -> option document.
Variable limit_rule : jsval -> option jsnum.
Variable search_rule : jsval -> option string.
Variable T : model.
Variable doc_value : document -> jsval.
Variable exec_query : query -> promise (list document).
Variable R : Type.
Variable throwNotFound : M trace R.
Variable throwCustom : error -> M trace R.

Definition handleTaskReturn : awaitable -> trace -> trace * promise (handled R) :=
  handleReturn R throwNotFound throwCustom.

(** [getTaskById(req, res).where({ id })]: the lookup is started, then
    handed to [handleTaskReturn]. *)
Definition getTaskById_where (id : string) (s : world collection * trace)
  : (world collection * trace) * promise (handled R) :=
  let (w', p) := safeFindById isValid collection lookup id s.1 in
  let (t', h) :=
    handleTaskReturn
      (Promised (match p with
                 | Fulfilled d => Fulfilled (doc_value d)
                 | Rejected e => Rejected e
                 end)) s.2 in
  ((w', t'), h).

(** [getAllTasks(req, res).limit(n)]; the state is the query the closure
    holds and the response. *)
Definition tasks_limit (n : jsval) (s : query * trace)
  : (query * trace) * chained R :=
  match safeLimit limit_rule n s.1 with
  | (q', Normal This) => ((q', s.2), Builder)
  | (q', Throw err) =>
      let (t', p) := handleTaskReturn (Promised (Rejected err)) s.2 in
      ((q', t'), Settled p)
  end.

(** [getAllTasks(req, res).startsWith(searchParam = '', key = 'description')];
    [None] is a key left out. *)
Definition tasks_startsWith (searchParam : jsval) (key : option string)
    (s : query * trace) : (query * trace) * chained R :=
  let searchParam := or_default (JStr "") searchParam in
  let key := default "description" key in
  if negb (truthy searchParam) || String.eqb key ""
  then (s, Builder)
  else
    match safeStartsWith search_rule searchParam key T s.1 with
    | (q', Normal This) => ((q', s.2), Builder)
    | (q', Throw err) =>
        let (t', p) := handleTaskReturn (Promised (Rejected err)) s.2 in
        ((q', t'), Settled p)
    end.

(** [getAllTasks(req, res).all()]. *)
Definition tasks_all (s : query * trace) : (query * trace) * promise (handled R) :=
  let (t', p) :=
    match exec_query s.1 with
    | Fulfilled docs => handleTaskReturn (Value (JArr (map doc_value docs))) s.2
    | Rejected err => handleTaskReturn (Promised (Rejected err)) s.2
    end in
  ((s.1, t'), p).

(** Calling a builder method on what the previous call returned: on the
    builder it runs, on a promise there is no such method. *)
Definition on_builder {A : Type} (prev : (query * trace) * chained R)
    (name : string) (method : query * trace -> (query * trace) * A)
  : (query * trace) * completion A :=
  match prev.2 with
  | Builder => let (s', a) := method prev.1 in (s', Normal a)
  | Settled _ => (prev.1, Throw (TypeError (name +:+ " is not a function")))
  end.

(** [getAllTasks(req, res).limit(n).startsWith(searchParam, key).all()]. *)
Definition limit_startsWith_all (n searchParam : jsval) (key : option string)
    (t : trace) : (query * trace) * completion (promise (handled R)) :=
  let r1 := tasks_limit n (find_all, t) in
  match on_builder r1 "startsWith" (tasks_startsWith searchParam key) with
  | (s2, Throw e) => (s2, Throw e)
  | (s2, Normal c2) => on_builder (s2, c2) "all" tasks_all
  end.

End Injected.

End TasksController.

Import TasksController.

(* ===================================================================== *)
(** ** auth/auth.js: the login handler *)
(* ===================================================================== *)

Module Auth.

(** What the handler needs of the user it found: [_id.toString()] and
    [password]. *)
Record user_record : Type := mkUser {
  user_id : string;
  user_password : string
}.

(** What a run of the handler leaves behind. *)
Inductive auth_event : Type :=
| TokenSigned (payload : jsval)
| NextCalled (err : error)
| JwtAnswer (token : string).

(** [require('../operations/response')]: the module exports its factory,
    an arrow function, and the handler does not call it. *)
Definition response_module : jsval := JFun "" 0.

(** [buildPayload(userId)]. *)
Definition buildPayload (userId : string) : jsval :=
  JObj [("sub", JStr userId)].

Section Collaborators.

(** [user.safeParse] yielding [email] and [password]; [User.findOne];
    [bcrypt.compare]; [jwt.sign] with the secret and the expiry of
    [createJWT]. *)
Variable user_safeParse : jsval -> option (string * string).
Variable findOne : string -> promise (option user_record).
Variable compare : string -> string -> promise bool.
Variable sign : jsval -> completion string.

(** [createJWT(userId)]. *)
Definition createJWT (userId : string) : M (list auth_event) string :=
  fun w =>
    match sign (buildPayload userId) with
    | Normal token => (w ++ [TokenSigned (buildPayload userId)], Normal token)
    | Throw e => (w, Throw e)
    end.

(** [response.jwt({ res, token })]: the member is looked up on the
    exported function and called. *)
Definition response_jwt (token : string) : M (list auth_event) jsval :=
  match get_prop response_module "jwt" with
  | JFun _ _ => fun w => (w ++ [JwtAnswer token], Normal JUndefined)
  | _ => throw (TypeError "response.jwt is not a function")
  end.

(** The [try] block of [handleLogin]. *)
Definition handleLogin_try (userInput : jsval) : M (list auth_event) jsval :=
  if negb (String.eqb (typeof userInput) "object")
  then throw (InvalidParamTypeError "userObject" "object" (typeof userInput))
  else
    match user_safeParse userInput with
    | None => throw (BadRequestError "Invalid user schema")
    | Some (email, password) =>
        match findOne email with
        | Rejected e => throw e
        | Fulfilled None => throw (NotFoundError "User not found")
        | Fulfilled (Some foundUser) =>
            match compare password (user_password foundUser) with
            | Rejected e => throw e
            | Fulfilled false => throw (BadRequestError "Incorrect email or password")
            | Fulfilled true =>
                (token <- createJWT (user_id foundUser) ;;
                 response_jwt token)%js
            end
        end
    end.

(** [async function handleLogin(req, res, next)], [req.body] being the
    input: what the [try] block throws goes to [next]. *)
Definition handleLogin (userInput : jsval) (w : list auth_event)
  : list auth_event * promise jsval :=
  match handleLogin_try userInput w with
  | (w', Normal r) => (w', Fulfilled r)
  | (w', Throw err) => (w' ++ [NextCalled err], Fulfilled JUndefined)
  end.

End Collaborators.

End Auth.

Import Auth.

(* ===================================================================== *)
(** ** Sample collaborators for the controller layer *)
(* ===================================================================== *)

Module Samples.

(** Error helpers that answer with a status and the error's kind. *)
Definition throwNotFound : M trace response :=
  res_status_json (of_Z 404) (JStr "Not Found").

Definition throwCustom (e : error) : M trace response :=
  res_status_json
    (match kind_of e with
     | BadRequest => of_Z 400
     | NotFound => of_Z 404
     | _ => of_Z 500
     end) (JStr "error").

(** A document as a value: its identifier and its description. *)
Definition doc_value (d : document) : jsval :=
  JObj [("_id", JStr (doc_id d));
        ("description", default JUndefined (doc_fields d !! "description"))].

Definition exec_on (coll : list document) (q : query) : promise (list document) :=
  Fulfilled (exec q coll).

(** A user store with one user, passwords compared as plain text. *)
Definition user_safeParse (v : jsval) : option (string * string) :=
  match get_prop v "email", get_prop v "password" with
  | JStr e, JStr p => Some (e, p)
  | _, _ => None
  end.

Definition findOne (email : string) : promise (option user_record) :=
  Fulfilled (if String.eqb email "ann@example.com"
             then Some {| user_id := "65fa0c2a1d3e4f5a6b7c8d90";
                          user_password := "secret1" |}
             else None).

Definition compare (plain hashed : string) : promise bool :=
  Fulfilled (String.eqb plain hashed).

Definition sign (payload : jsval) : completion string := Normal "token".

End Samples.

(* ===================================================================== *)
(** ** Properties of safeFindById *)
(* ===================================================================== *)

Section SafeFindById.

Variable isValid : string -> bool.
Variable collection : Type.
Variable lookup : collection -> string -> option document.

Local Abbreviation safeFindById :=
  (TaskMethods.safeFindById isValid collection lookup).

Lemma safeFindById_malformed (id : string) (w : world collection) :
  isValid id = false ->
  safeFindById id w = (w, Rejected (BadRequestError "Invalid ID format")).
Proof.
  intros H. unfold TaskMethods.safeFindById, safeFindById_body.
  rewrite H. reflexivity.
Qed.

Lemma safeFindById_lookup (id : string) (w : world collection) :
  isValid id = true ->
  safeFindById id w =
    ({| stored := stored w; lookups := lookups w ++ [id] |},
     match lookup (stored w) id with
     | None => Rejected (NotFoundError "Task not found")
     | Some d => Fulfilled d
     end).
Proof.
  intros H. unfold TaskMethods.safeFindById, safeFindById_body, bind, findById.
  rewrite H. simpl. destruct (lookup (stored w) id); reflexivity.
Qed.

(** C1. For every string [id]: a malformed [id] rejects with a BadRequest
    error and the store has seen no lookup (the world is untouched); a
    well-formed [id] that matches no record rejects with a NotFound error
    after exactly one lookup of [id]; a well-formed [id] that matches a
    record fulfils with that record. *)
Theorem safeFindById_outcomes (id : string) (w : world collection) :
  (isValid id = false ->
     exists e, safeFindById id w = (w, Rejected e) /\ kind_of e = BadRequest)
  /\ (isValid id = true -> lookup (stored w) id = None ->
        exists e, snd (safeFindById id w) = Rejected e /\ kind_of e = NotFound)
  /\ (forall d, isValid id = true -> lookup (stored w) id = Some d ->
        snd (safeFindById id w) = Fulfilled d)
  /\ (isValid id = true ->
        lookups (fst (safeFindById id w)) = lookups w ++ [id]
        /\ stored (fst (safeFindById id w)) = stored w).
Proof.
  repeat split.
  - intros H. eexists. split; [apply safeFindById_malformed, H | reflexivity].
  - intros H Hn. rewrite safeFindById_lookup by exact H. rewrite Hn.
    eexists. split; reflexivity.
  - intros d H Hd. rewrite safeFindById_lookup by exact H. rewrite Hd.
    reflexivity.
  - rewrite safeFindById_lookup by assumption. reflexivity.
  - rewrite safeFindById_lookup by assumption. reflexivity.
Qed.

End SafeFindById.

(* ===================================================================== *)
(** ** Properties of safeLimit *)
(* ===================================================================== *)

Lemma ceiling_count_integer (k : Z) :
  0 < k -> ceiling_count (Fin (inject_Z k)) = Some (Z.to_nat k).
Proof.
  intros Hk. unfold ceiling_count, inject_Z. simpl.
  rewrite Z.mod_1_r, Z.div_1_r.
  destruct (Z.ltb_spec 0 k) as [_|Hle]; [reflexivity | lia].
Qed.

Lemma exec_unbounded (q : query) (coll : list document) :
  ceiling q = None -> exec q coll = List.filter (selected q) coll.
Proof. intros H. unfold exec, cap. rewrite H. reflexivity. Qed.

Lemma exec_ceiling (c : gmap string RegExp) (k : Z) (coll : list document) :
  0 < k ->
  exec {| conditions := c; ceiling := Some (Fin (inject_Z k)) |} coll =
  take (Z.to_nat k) (exec {| conditions := c; ceiling := None |} coll).
Proof.
  intros Hk. unfold exec. cbn [ceiling conditions selected].
  change (cap (Some (Fin (inject_Z k)))) with
    (fun ds : list document =>
       match ceiling_count (Fin (inject_Z k)) with
       | Some n => take n ds
       | None => ds
       end).
  cbv beta. rewrite ceiling_count_integer by exact Hk. reflexivity.
Qed.

Section SafeLimit.

Variable rule : jsval -> option jsnum.

Local Abbreviation safeLimit := (TaskMethods.safeLimit rule).

Lemma safeLimit_falsy (n : jsval) (q : query) :
  truthy n = false -> safeLimit n q = (q, Normal This).
Proof. intros H. unfold TaskMethods.safeLimit. rewrite H. reflexivity. Qed.

Lemma safeLimit_rejected (n : jsval) (q : query) :
  truthy n = true -> rule n = None ->
  safeLimit n q = (q, Throw (BadRequestError "Invalid Limit")).
Proof.
  intros H Hr. unfold TaskMethods.safeLimit. rewrite H, Hr. reflexivity.
Qed.

Lemma safeLimit_accepted (n : jsval) (d : jsnum) (q : query) :
  truthy n = true -> rule n = Some d ->
  safeLimit n q =
    ({| conditions := conditions q; ceiling := Some d |}, Normal This).
Proof.
  intros H Hr. unfold TaskMethods.safeLimit. rewrite H, Hr. reflexivity.
Qed.

(** C2. For every argument [n] and query [q]: a falsy [n] returns the
    query as it was, ceiling included; a truthy [n] the rule rejects throws
    a BadRequest error; a positive integer [k] the rule accepts returns the
    query with ceiling [k], so that executing it yields the first [k]
    documents of what the query yields without a ceiling, at most [k]
    records. *)
Theorem safeLimit_outcomes (n : jsval) (q : query) :
  (truthy n = false -> safeLimit n q = (q, Normal This))
  /\ (truthy n = true -> rule n = None ->
        exists e, safeLimit n q = (q, Throw e) /\ kind_of e = BadRequest)
  /\ (forall k : Z, 0 < k -> n = of_Z k -> rule n = Some (Fin (inject_Z k)) ->
        exists q', safeLimit n q = (q', Normal This)
          /\ conditions q' = conditions q
          /\ forall coll,
               exec q' coll =
                 take (Z.to_nat k)
                   (exec {| conditions := conditions q; ceiling := None |} coll)
               /\ (length (exec q' coll) <= Z.to_nat k)%nat).
Proof.
  split; [| split].
  - apply safeLimit_falsy.
  - intros H Hr. eexists. split; [apply safeLimit_rejected; assumption |].
    reflexivity.
  - intros k Hk -> Hr. eexists. split; [| split].
    + apply safeLimit_accepted; [| exact Hr].
      unfold of_Z, truthy, inject_Z. simpl.
      destruct (Z.eqb_spec k 0); [lia | reflexivity].
    + reflexivity.
    + intros coll. rewrite exec_ceiling by exact Hk. split; [reflexivity |].
      rewrite length_take. lia.
Qed.

End SafeLimit.

(* ===================================================================== *)
(** ** Properties of the escaped prefix pattern *)
(* ===================================================================== *)

Lemma escaped_class_SyntaxCharacter (c : ascii) :
  escaped_class c = SyntaxCharacter c.
Proof. destruct c as [[] [] [] [] [] [] [] []]; vm_compute; reflexivity. Qed.

Lemma unescaped_is_ordinary (c : ascii) :
  escaped_class c = false ->
  Ascii.eqb c "\" = false /\ Ascii.eqb c "." = false /\ SyntaxCharacter c = false.
Proof.
  destruct c as [[] [] [] [] [] [] [] []]; vm_compute; intros H;
    solve [ discriminate H | repeat split ].
Qed.

Lemma parse_atoms_escapeRegex (s : string) :
  parse_atoms false (escapeRegex s) = Some (literal_atoms s).
Proof.
  induction s as [| c rest IH]; [reflexivity |].
  cbn [escapeRegex literal_atoms].
  destruct (escaped_class c) eqn:Hc.
  - cbn [parse_atoms]. rewrite Ascii.eqb_refl.
    rewrite <- escaped_class_SyntaxCharacter, Hc, IH. reflexivity.
  - destruct (unescaped_is_ordinary c Hc) as (Hb & Hd & Hs).
    cbn [parse_atoms]. rewrite Hb, Hd, Hs, IH. reflexivity.
Qed.

Lemma parse_prefix_pattern (s : string) :
  parse ("^" +:+ escapeRegex s) = Some (mkPattern true (literal_atoms s)).
Proof.
  change ("^" +:+ escapeRegex s) with (String "^" (escapeRegex s)).
  cbn [parse]. rewrite parse_atoms_escapeRegex. reflexivity.
Qed.

Lemma match_here_literal (p s : string) :
  match_here true (literal_atoms p) s = starts_with_ci p s.
Proof.
  revert s. induction p as [| a p IH]; intros s; [reflexivity |].
  destruct s as [| b s]; [reflexivity |].
  cbn [literal_atoms match_here starts_with_ci atom_matches same_char].
  rewrite IH. reflexivity.
Qed.

(** The expression [safeStartsWith] builds accepts exactly the strings
    that start with the search string, letter case aside. *)
Lemma test_prefix_pattern (data s : string) :
  test (mkRegExp ("^" +:+ escapeRegex data) "i") s = Some (starts_with_ci data s).
Proof.
  unfold test. cbn [source flags]. rewrite parse_prefix_pattern.
  cbn. rewrite match_here_literal. reflexivity.
Qed.

Lemma selected_lookup (q : query) (d : document) (key : string) (re : RegExp) :
  selected q d = true -> conditions q !! key = Some re ->
  satisfies d key re = true.
Proof.
  unfold selected. intros Hall Hk.
  rewrite forallb_forall in Hall.
  apply (Hall (key, re)). apply list_elem_of_In, elem_of_map_to_list, Hk.
Qed.

(** Every record a query with the prefix condition on [key] returns holds,
    under [key], a string that starts with the search string. *)
Lemma exec_prefix_condition (q : query) (key data : string)
    (coll : list document) (d : document) :
  conditions q !! key = Some (mkRegExp ("^" +:+ escapeRegex data) "i") ->
  d ∈ exec q coll ->
  exists s, doc_fields d !! key = Some (JStr s) /\ starts_with_ci data s = true.
Proof.
  intros Hk Hd.
  assert (Hin : d ∈ List.filter (selected q) coll).
  { unfold exec, cap in Hd. destruct (ceiling q ≫= ceiling_count).
    - eapply subseteq_take, Hd.
    - exact Hd. }
  apply list_elem_of_In, filter_In in Hin. destruct Hin as [_ Hsel].
  pose proof (selected_lookup _ _ _ _ Hsel Hk) as Hs.
  unfold satisfies in Hs.
  destruct (doc_fields d !! key) as [[]|]; try discriminate Hs.
  eexists; split; [reflexivity |].
  apply bool_decide_eq_true in Hs. rewrite test_prefix_pattern in Hs.
  congruence.
Qed.

(* ===================================================================== *)
(** ** Properties of safeStartsWith *)
(* ===================================================================== *)

Section SafeStartsWith.

Variable rule : jsval -> option string.

Local Abbreviation safeStartsWith := (TaskMethods.safeStartsWith rule).

Lemma safeStartsWith_falsy (sp : jsval) (key : string) (T : model) (q : query) :
  truthy sp = false -> safeStartsWith sp key T q = (q, Normal This).
Proof. intros H. unfold TaskMethods.safeStartsWith. rewrite H. reflexivity. Qed.

Lemma safeStartsWith_rejected (sp : jsval) (key : string) (T : model) (q : query) :
  truthy sp = true -> rule sp = None ->
  safeStartsWith sp key T q = (q, Throw (BadRequestError "Invalid searchParam")).
Proof.
  intros H Hr. unfold TaskMethods.safeStartsWith. rewrite H, Hr. reflexivity.
Qed.

(** A key the [in] test does not find is refused, and the message carries
    the key. *)
Lemma safeStartsWith_unknown_key (sp : jsval) (data key : string) (T : model)
    (q : query) :
  truthy sp = true -> rule sp = Some data ->
  has_property key (paths (model_schema T)) = false ->
  safeStartsWith sp key T q =
    (q, Throw (BadRequestError ("No Property " +:+ key +:+ " found"))).
Proof.
  intros H Hr Hk. unfold TaskMethods.safeStartsWith. rewrite H, Hr, Hk.
  reflexivity.
Qed.

(** A key the [in] test finds gets the escaped, case-insensitive prefix
    condition, and nothing else of the query changes. *)
Lemma safeStartsWith_filtered (sp : jsval) (data key : string) (T : model)
    (q : query) :
  truthy sp = true -> rule sp = Some data ->
  has_property key (paths (model_schema T)) = true ->
  safeStartsWith sp key T q =
    ({| conditions :=
          <[key := mkRegExp ("^" +:+ escapeRegex data) "i"]> (conditions q);
        ceiling := ceiling q |}, Normal This).
Proof.
  intros H Hr Hk. unfold TaskMethods.safeStartsWith. rewrite H, Hr, Hk.
  reflexivity.
Qed.

(** After a successful [safeStartsWith] on a declared or inherited key, the
    records the query returns all start, under that key, with the search
    string taken literally. *)
Lemma safeStartsWith_literal_prefix (sp : jsval) (data key : string) (T : model)
    (q : query) (coll : list document) (d : document) :
  truthy sp = true -> rule sp = Some data ->
  has_property key (paths (model_schema T)) = true ->
  d ∈ exec (fst (safeStartsWith sp key T q)) coll ->
  exists s, doc_fields d !! key = Some (JStr s) /\ starts_with_ci data s = true.
Proof.
  intros H Hr Hk Hd.
  rewrite (safeStartsWith_filtered sp data key T q H Hr Hk) in Hd.
  eapply exec_prefix_condition; [| exact Hd].
  cbn [fst conditions]. apply lookup_insert_eq.
Qed.

(** C3. The key [constructor] is no path of the Task schema, yet the
    [in] test finds it on [Task.schema.paths] through [Object.prototype]:
    for every accepted search string the call does not throw, it returns
    the query with a condition on [constructor]. *)
Theorem safeStartsWith_inherited_key (sp : jsval) (data : string) (q : query) :
  truthy sp = true -> rule sp = Some data ->
  ("constructor" ∉ paths (model_schema Task))
  /\ safeStartsWith sp "constructor" Task q =
       ({| conditions :=
             <["constructor" := mkRegExp ("^" +:+ escapeRegex data) "i"]>
               (conditions q);
           ceiling := ceiling q |}, Normal This).
Proof.
  intros H Hr. split.
  - apply (bool_decide_unpack _). vm_compute. exact I.
  - apply safeStartsWith_filtered; [exact H | exact Hr |].
    vm_compute. reflexivity.
Qed.

End SafeStartsWith.

(* ===================================================================== *)
(** ** No mutation before a validation failure *)
(* ===================================================================== *)

Section AllOrNothing.

Variable limit_rule : jsval -> option jsnum.
Variable search_rule : jsval -> option string.

(** C8. Each of [safeLimit] and [safeStartsWith], on every argument and
    every query, either returns the handle (the query possibly changed) or
    throws a BadRequest error with the query, conditions and ceiling,
    exactly as it was before the call. *)
Theorem guarded_query_all_or_nothing (q : query) :
  (forall n,
     (exists q', TaskMethods.safeLimit limit_rule n q = (q', Normal This))
     \/ (exists e, TaskMethods.safeLimit limit_rule n q = (q, Throw e)
                   /\ kind_of e = BadRequest))
  /\ (forall sp key T,
        (exists q', TaskMethods.safeStartsWith search_rule sp key T q
                    = (q', Normal This))
        \/ (exists e, TaskMethods.safeStartsWith search_rule sp key T q
                      = (q, Throw e)
                      /\ kind_of e = BadRequest)).
Proof.
  split.
  - intros n. unfold TaskMethods.safeLimit.
    destruct (truthy n); cbn [negb].
    + destruct (limit_rule n) as [d|].
      * left. eexists. reflexivity.
      * right. eexists. split; reflexivity.
    + left. eexists. reflexivity.
  - intros sp key T. unfold TaskMethods.safeStartsWith.
    destruct (truthy sp); cbn [negb].
    + destruct (search_rule sp) as [data|].
      * destruct (has_property key (paths (model_schema T))); cbn [negb].
        -- left. eexists. reflexivity.
        -- right. eexists. split; reflexivity.
      * right. eexists. split; reflexivity.
    + left. eexists. reflexivity.
Qed.

End AllOrNothing.

(* ===================================================================== *)
(** ** Properties of applyStaticMethods *)
(* ===================================================================== *)

Lemma apply_entry_well_formed (entry : jsval) (k : string) (fn : jsval) (s : schema) :
  well_formed entry = Some (k, fn) ->
  apply_entry entry s = Normal (install k fn s).
Proof.
  unfold well_formed, apply_entry.
  destruct (destructure entry) as [[name f]|e]; [| discriminate].
  destruct name; try discriminate. destruct f; try discriminate.
  intros [= <- <-]. reflexivity.
Qed.

Lemma apply_entry_ill_formed (entry : jsval) (s : schema) :
  well_formed entry = None -> exists e, apply_entry entry s = Throw e.
Proof.
  unfold well_formed, apply_entry.
  destruct (destructure entry) as [[name f]|e]; [| eauto].
  destruct name, f; intros H; try discriminate H; cbn; eauto.
Qed.

(** What the loop body throws is a parameter-type error or the engine's
    TypeError, never a missing-parameter error. *)
Lemma apply_entry_error (entry : jsval) (s : schema) (e : error) :
  apply_entry entry s = Throw e ->
  kind_of e = TypeMismatch \/ kind_of e = Engine.
Proof.
  unfold apply_entry, destructure.
  destruct entry; cbn;
    repeat match goal with
           | |- context [if ?b then _ else _] => destruct b
           | |- context [match ?x with _ => _ end] => destruct x
           end;
    intros [= <-]; cbn; auto.
Qed.

Lemma apply_entries_error (entries : list jsval) (s s' : schema) (e : error) :
  apply_entries entries s = (s', Throw e) ->
  kind_of e = TypeMismatch \/ kind_of e = Engine.
Proof.
  revert s. induction entries as [| entry rest IH]; intros s; cbn.
  - discriminate.
  - destruct (apply_entry entry s) as [s1|e1] eqn:He.
    + apply IH.
    + intros [= _ <-]. eapply apply_entry_error, He.
Qed.

(** A run of well-formed entries is installed from left to right, and the
    loop goes on with what follows. *)
Lemma apply_entries_prefix (pre rest : list jsval) (s : schema) :
  Forall (fun entry => is_Some (well_formed entry)) pre ->
  apply_entries (pre ++ rest) s =
  apply_entries rest (install_all (omap well_formed pre) s).
Proof.
  intros Hpre. revert s.
  induction Hpre as [| entry pre [[k fn] Hwf] _ IH]; intros s; [reflexivity |].
  cbn [app apply_entries omap list_omap]. rewrite Hwf.
  rewrite (apply_entry_well_formed _ _ _ _ Hwf). rewrite IH. reflexivity.
Qed.


Lemma applyStaticMethods_array (s : schema) (entries : list jsval) :
  applyStaticMethods (Some s) (JArr entries) =
  let (s', c) := apply_entries entries s in (Some s', c).
Proof. reflexivity. Qed.


(** C4. With well-formed entries [pre], an entry [bad] the installer does
    not accept and any entries [post] after it: the call throws the error
    of [bad], and the schema then holds exactly the assignments of [pre],
    made from left to right; nothing of [post] is installed and nothing of
    [pre] is taken back. *)
Theorem applyStaticMethods_stops_at_first_invalid
    (s : schema) (pre post : list jsval) (bad : jsval) :
  Forall (fun entry => is_Some (well_formed entry)) pre ->
  well_formed bad = None ->
  exists e,
    apply_entry bad (install_all (omap well_formed pre) s) = Throw e
    /\ applyStaticMethods (Some s) (JArr (pre ++ bad :: post)) =
         (Some (install_all (omap well_formed pre) s), Throw e).
Proof.
  intros Hpre Hbad.
  destruct (apply_entry_ill_formed bad (install_all (omap well_formed pre) s) Hbad)
    as [e He].
  exists e. split; [exact He |].
  rewrite applyStaticMethods_array, apply_entries_prefix by exact Hpre.
  cbn [apply_entries]. rewrite He. reflexivity.
Qed.

Lemma applyStaticMethods_not_array (ts : option schema) (methods : jsval) :
  isArray methods = false ->
  applyStaticMethods ts methods =
    (ts, Throw (InvalidParamTypeError "methods" "Array" (typeof methods))).
Proof. intros H. unfold applyStaticMethods. rewrite H. reflexivity. Qed.

Lemma applyStaticMethods_no_schema (entries : list jsval) :
  applyStaticMethods None (JArr entries) =
    (None, Throw (MissingParamError "TaskSchema")).
Proof. reflexivity. Qed.

(** No call ever throws a missing-parameter error for [methods]: the array
    test comes first and an array is truthy. *)
Lemma applyStaticMethods_never_missing_methods
    (ts : option schema) (methods : jsval) (p : string) :
  snd (applyStaticMethods ts methods) = Throw (MissingParamError p) ->
  p = "TaskSchema".
Proof.
  unfold applyStaticMethods.
  destruct methods; cbn; try discriminate.
  destruct ts as [s|]; cbn.
  - destruct (apply_entries items s) as [s' [u|e]] eqn:He; cbn; [discriminate |].
    intros [= ->]. apply apply_entries_error in He.
    destruct He as [He|He]; discriminate He.
  - intros [= <-]. reflexivity.
Qed.

(** C5. With the method list left out ([undefined]), whatever the schema
    argument, the call throws the parameter-type error of the array test,
    not a missing-parameter error. *)
Theorem applyStaticMethods_absent_methods (ts : option schema) :
  applyStaticMethods ts JUndefined =
    (ts, Throw (InvalidParamTypeError "methods" "Array" "undefined"))
  /\ kind_of (InvalidParamTypeError "methods" "Array" "undefined") <> MissingParam.
Proof. split; [reflexivity | discriminate]. Qed.

(** C10. After well-formed entries, an entry whose [name] is a string and
    whose [fn] is not a function makes the call throw
    [InvalidParamTypeError('method', 'function', typeof name)]: the
    received type it reports is that of [name], which is [string]. *)
Theorem applyStaticMethods_reports_type_of_name
    (s : schema) (pre post : list jsval) (entry : jsval) (k : string) (fn : jsval) :
  Forall (fun entry => is_Some (well_formed entry)) pre ->
  destructure entry = Normal (JStr k, fn) ->
  typeof fn <> "function" ->
  snd (applyStaticMethods (Some s) (JArr (pre ++ entry :: post))) =
    Throw (InvalidParamTypeError "method" "function" (typeof (JStr k)))
  /\ typeof (JStr k) = "string".
Proof.
  intros Hpre Hd Hfn. split; [| reflexivity].
  rewrite applyStaticMethods_array, apply_entries_prefix by exact Hpre.
  cbn [apply_entries]. unfold apply_entry. rewrite Hd.
  apply String.eqb_neq in Hfn. rewrite Hfn. reflexivity.
Qed.

(* ===================================================================== *)
(** ** Properties of the pipeline executor *)
(* ===================================================================== *)

(** The run of the steps leaves one call per step reached, in order and
    with the chained inputs, and ends as the composition does. *)
Lemma run_steps_trace (steps : list step) (index : nat) (v : jsval) (t : trace) :
  run_steps index steps v t =
    (t ++ step_events (chain index steps v), compose_steps steps v).
Proof.
  revert index v t. induction steps as [| f rest IH]; intros index v t.
  - cbn. rewrite app_nil_r. reflexivity.
  - cbn [run_steps chain compose_steps]. unfold bind, emit.
    destruct (awaited (f v)) as [w|e].
    + rewrite IH. cbn [step_events map]. rewrite <- app_assoc. reflexivity.
    + cbn [step_events map]. reflexivity.
Qed.

Lemma compose_steps_app (l1 l2 : list step) (v : jsval) :
  compose_steps (l1 ++ l2) v =
  match compose_steps l1 v with
  | Normal u => compose_steps l2 u
  | Throw e => Throw e
  end.
Proof.
  revert v. induction l1 as [| f l1 IH]; intros v; [reflexivity |].
  cbn. destruct (awaited (f v)); [apply IH | reflexivity].
Qed.

Lemma compose_steps_take (steps : list step) (v w : jsval) (i : nat) :
  compose_steps steps v = Normal w ->
  exists u, compose_steps (take i steps) v = Normal u.
Proof.
  rewrite <- (take_drop i steps) at 1. rewrite compose_steps_app.
  destruct (compose_steps (take i steps) v); [eauto | discriminate].
Qed.

(** The step at position [i] is called with the composition of the steps
    before it. *)
Lemma chain_lookup (steps : list step) (j i : nat) (f : step) (v u : jsval) :
  steps !! i = Some f ->
  compose_steps (take i steps) v = Normal u ->
  chain j steps v !! i = Some ((j + i)%nat, u).
Proof.
  revert j i v. induction steps as [| g rest IH]; intros j i v Hf Hu.
  - discriminate Hf.
  - destruct i as [| i].
    + cbn in Hu. injection Hu as <-. cbn. rewrite Nat.add_0_r. reflexivity.
    + cbn in Hf, Hu. cbn [chain]. destruct (awaited (g v)) as [w|e].
      * change (chain (S j) rest w !! i = Some ((j + S i)%nat, u)).
        rewrite (IH (S j) i w Hf Hu). f_equal. f_equal. lia.
      * discriminate Hu.
Qed.

Lemma chain_complete (steps : list step) (j : nat) (v w : jsval) :
  compose_steps steps v = Normal w ->
  length (chain j steps v) = length steps.
Proof.
  revert j v. induction steps as [| g rest IH]; intros j v H; [reflexivity |].
  cbn in *. destruct (awaited (g v)); [| discriminate].
  rewrite (IH _ _ H). reflexivity.
Qed.

Lemma chain_indices (steps : list step) (j : nat) (v : jsval) :
  (chain j steps v).*1 = seq j (length (chain j steps v)).
Proof.
  revert j v. induction steps as [| g rest IH]; intros j v; [reflexivity |].
  cbn. destruct (awaited (g v)); [| reflexivity].
  rewrite IH. reflexivity.
Qed.

(** A run whose step [k] fails is the run of the first [k + 1] steps. *)
Lemma chain_failure (steps : list step) (j k : nat) (f : step) (v u : jsval) (e : error) :
  steps !! k = Some f ->
  compose_steps (take k steps) v = Normal u ->
  awaited (f u) = Throw e ->
  chain j steps v = chain j (take (S k) steps) v
  /\ length (chain j steps v) = S k
  /\ compose_steps steps v = Throw e.
Proof.
  revert j k v. induction steps as [| g rest IH]; intros j k v Hf Hu He.
  - discriminate Hf.
  - destruct k as [| k].
    + cbn in Hf, Hu. injection Hf as ->. injection Hu as <-.
      cbn. rewrite He. repeat split.
    + cbn in Hf, Hu. cbn. destruct (awaited (g v)) as [w|e'].
      * destruct (IH (S j) k w Hf Hu He) as (H1 & H2 & H3).
        rewrite <- H1, H2. repeat split. exact H3.
      * discriminate Hu.
Qed.

Lemma terminal_calls_step_events (t : trace) (calls : list (nat * jsval)) :
  terminal_calls (t ++ step_events calls) = terminal_calls t.
Proof.
  unfold terminal_calls. rewrite omap_app.
  induction calls as [| c calls IH]; [apply app_nil_r | exact IH].
Qed.

(** On the success path [create] is one call of the terminal consumer,
    made after the step calls and on the composed value. *)
Lemma create_success {R : Type}
    (v : jsval) (steps : list step) (terminalConsumer : jsval -> M trace R)
    (t : trace) (w : jsval) :
  compose_steps steps v = Normal w ->
  create v steps terminalConsumer t =
    (let (t', c) :=
       terminalConsumer w (t ++ step_events (chain 0 steps v) ++ [TerminalCall w])
     in (t', settle c)).
Proof.
  intros Hw. unfold create, bind. rewrite run_steps_trace, Hw.
  unfold emit. rewrite <- app_assoc. reflexivity.
Qed.

(** C6. For every initial value [v] and steps whose composition from [v]
    yields [w]: the steps are called in list order, one call each, step [i]
    receiving the output of the steps before it; then the terminal
    consumer is called, once, with [w], and what it returns is what the
    pipeline returns. *)
Theorem create_runs_steps_in_order {R : Type}
    (v : jsval) (steps : list step) (terminalConsumer : jsval -> M trace R)
    (t : trace) (w : jsval) :
  compose_steps steps v = Normal w ->
  create v steps terminalConsumer t =
    (let (t', c) :=
       terminalConsumer w (t ++ step_events (chain 0 steps v) ++ [TerminalCall w])
     in (t', settle c))
  /\ (chain 0 steps v).*1 = seq 0 (length steps)
  /\ (forall i f, steps !! i = Some f ->
        exists u, compose_steps (take i steps) v = Normal u
                  /\ chain 0 steps v !! i = Some (i, u)).
Proof.
  intros Hw. split; [| split].
  - apply create_success, Hw.
  - rewrite chain_indices, (chain_complete _ _ _ _ Hw). reflexivity.
  - intros i f Hf. destruct (compose_steps_take steps v w i Hw) as [u Hu].
    exists u. split; [exact Hu |]. apply (chain_lookup steps 0 i f v u Hf Hu).
Qed.

(** C7. When step [k] fails on the value the steps before it produce: the
    pipeline settles as rejected with that very error; the steps called
    are those at positions 0 to [k] and no other; the terminal consumer is
    never called, nor run. *)
Theorem create_short_circuits {R : Type}
    (v : jsval) (steps : list step) (terminalConsumer : jsval -> M trace R)
    (t : trace) (k : nat) (f : step) (u : jsval) (e : error) :
  steps !! k = Some f ->
  compose_steps (take k steps) v = Normal u ->
  awaited (f u) = Throw e ->
  create v steps terminalConsumer t =
    (t ++ step_events (chain 0 (take (S k) steps) v), Rejected e)
  /\ (chain 0 (take (S k) steps) v).*1 = seq 0 (S k)
  /\ chain 0 (take (S k) steps) v !! k = Some (k, u)
  /\ terminal_calls (fst (create v steps terminalConsumer t)) = terminal_calls t.
Proof.
  intros Hf Hu He.
  destruct (chain_failure steps 0 k f v u e Hf Hu He) as (Hc & Hlen & Hfail).
  assert (Hrun : create v steps terminalConsumer t =
                 (t ++ step_events (chain 0 (take (S k) steps) v), Rejected e)).
  { unfold create, bind. rewrite run_steps_trace, Hfail, Hc. reflexivity. }
  split; [exact Hrun | split; [| split]].
  - rewrite chain_indices, <- Hc, Hlen. reflexivity.
  - rewrite <- Hc. apply (chain_lookup steps 0 k f v u Hf Hu).
  - rewrite Hrun. apply terminal_calls_step_events.
Qed.

(* ===================================================================== *)
(** ** Properties of response.json *)
(* ===================================================================== *)

(** C9. With a non-empty array of callbacks whose composition on [data]
    yields [w], [json] runs the pipeline and writes one body,
    [{ success, pipeData: w, statusCode }]; with the callbacks left out,
    [null] or empty it runs no step and no terminal consumer and writes
    [{ success, data, statusCode }]. The payload key differs. *)
Theorem json_payload_key (o : json_options) (t : trace) :
  (forall fs w,
     pipeCallBacks o = Callbacks fs -> fs <> [] ->
     compose_steps fs (data o) = Normal w ->
     json o t =
       (t ++ step_events (chain 0 fs (data o)) ++
          [TerminalCall w;
           Sent (or_default (of_Z 200) (statusCode o))
             (body (or_default (JBool true) (success o)) "pipeData" w
                (or_default (of_Z 200) (statusCode o)))],
        Piped (Fulfilled Res)))
  /\ (pipeCallBacks o = NoCallbacks \/ pipeCallBacks o = NullCallbacks
      \/ pipeCallBacks o = Callbacks [] ->
      json o t =
        (t ++ [Sent (or_default (of_Z 200) (statusCode o))
                 (body (or_default (JBool true) (success o)) "data" (data o)
                    (or_default (of_Z 200) (statusCode o)))],
         Direct (Normal Res)))
  /\ "pipeData" <> "data".
Proof.
  split; [| split].
  - intros fs w Hcb Hne Hw. unfold json. rewrite Hcb.
    destruct fs as [| f fs]; [contradiction |].
    cbn [has_length callbacks_list].
    rewrite (create_success (data o) (f :: fs) _ t w Hw).
    unfold res_status_json, bind, emit, ret, body. cbv beta iota.
    rewrite <- !app_assoc. reflexivity.
  - intros [H | [H | H]]; unfold json; rewrite H; reflexivity.
  - discriminate.
Qed.

(* ===================================================================== *)
(** ** The specification's examples, run on the embedding *)
(* ===================================================================== *)

(** P6 on the scenario's collection: a malformed id, a well-formed id that
    is absent, an id that is present. *)
Lemma safeFindById_outcomes_witness :
  let find := TaskMethods.safeFindById Reference.ObjectId_isValid
                (list document) Reference.findById_exec in
  let w := mkWorld Reference.scenario [] in
  (exists e, find "not-a-valid-id" w = (w, Rejected e) /\ kind_of e = BadRequest)
  /\ (exists e, snd (find "64b7f0c2a1d3e4f5a6b7c8ff" w) = Rejected e
                /\ kind_of e = NotFound)
  /\ snd (find "64b7f0c2a1d3e4f5a6b7c8d2" w)
     = Fulfilled (Reference.task "64b7f0c2a1d3e4f5a6b7c8d2" "Alpha beta").
Proof.
  cbv zeta. split; [| split].
  - apply (safeFindById_outcomes Reference.ObjectId_isValid (list document)
             Reference.findById_exec "not-a-valid-id"
             (mkWorld Reference.scenario [])).
    reflexivity.
  - apply (safeFindById_outcomes Reference.ObjectId_isValid (list document)
             Reference.findById_exec "64b7f0c2a1d3e4f5a6b7c8ff"
             (mkWorld Reference.scenario [])); reflexivity.
  - apply (safeFindById_outcomes Reference.ObjectId_isValid (list document)
             Reference.findById_exec "64b7f0c2a1d3e4f5a6b7c8d2"
             (mkWorld Reference.scenario [])); reflexivity.
Defined.

(** P4 under a rule that admits the positive integers up to 100. *)
Lemma safeLimit_outcomes_witness :
  let lim := TaskMethods.safeLimit (Reference.limit_safeParse 100) in
  lim JUndefined find_all = (find_all, Normal This)
  /\ lim (of_Z 0) find_all = (find_all, Normal This)
  /\ (exists e, lim (of_Z (-1)) find_all = (find_all, Throw e)
                /\ kind_of e = BadRequest)
  /\ (exists e, lim Reference.one_point_five find_all = (find_all, Throw e)
                /\ kind_of e = BadRequest)
  /\ (exists q', lim (of_Z 5) find_all = (q', Normal This)
        /\ conditions q' = conditions find_all
        /\ forall coll,
             exec q' coll =
               take (Z.to_nat 5)
                 (exec {| conditions := conditions find_all; ceiling := None |} coll)
             /\ (length (exec q' coll) <= Z.to_nat 5)%nat).
Proof.
  cbv zeta. split; [| split; [| split; [| split]]].
  - apply (safeLimit_outcomes (Reference.limit_safeParse 100) JUndefined find_all).
    reflexivity.
  - apply (safeLimit_outcomes (Reference.limit_safeParse 100) (of_Z 0) find_all).
    reflexivity.
  - apply (safeLimit_outcomes (Reference.limit_safeParse 100) (of_Z (-1)) find_all);
      reflexivity.
  - apply (safeLimit_outcomes (Reference.limit_safeParse 100)
             Reference.one_point_five find_all); reflexivity.
  - apply (proj2 (proj2 (safeLimit_outcomes (Reference.limit_safeParse 100)
                           (of_Z 5) find_all)) 5); [lia | reflexivity | reflexivity].
Defined.

(** A search for [a] under the key [constructor], on the Task model. *)
Lemma safeStartsWith_inherited_key_witness :
  ("constructor" ∉ paths (model_schema Task))
  /\ TaskMethods.safeStartsWith Reference.searchParam_safeParse
       (JStr "a") "constructor" Task find_all =
       ({| conditions :=
             <["constructor" := mkRegExp ("^" +:+ escapeRegex "a") "i"]>
               (conditions find_all);
           ceiling := ceiling find_all |}, Normal This).
Proof.
  apply (safeStartsWith_inherited_key Reference.searchParam_safeParse
           (JStr "a") "a" find_all); reflexivity.
Defined.

(** P5: the dot of [a.b] is escaped and matches only a dot; the key
    [nonexistentField] is refused by name. *)
Example safeStartsWith_a_dot_b :
  TaskMethods.safeStartsWith Reference.searchParam_safeParse
    (JStr "a.b") "description" Task find_all =
    ({| conditions := {[ "description" := mkRegExp "^a\.b" "i" ]};
        ceiling := None |}, Normal This)
  /\ test (mkRegExp "^a\.b" "i") "a.b and more" = Some true
  /\ test (mkRegExp "^a\.b" "i") "A.B and more" = Some true
  /\ test (mkRegExp "^a\.b" "i") "axb and more" = Some false
  /\ test (mkRegExp "^a.b" "i") "axb and more" = Some true
  /\ TaskMethods.safeStartsWith Reference.searchParam_safeParse
       (JStr "x") "nonexistentField" Task find_all =
       (find_all, Throw (BadRequestError "No Property nonexistentField found")).
Proof. repeat split; vm_compute; reflexivity. Qed.

(** The scenario of the specification: of the three tasks, the query
    [find({}).safeStartsWith('Alpha', 'description', Task).safeLimit(1)]
    returns one, and it starts with [Alpha]. *)
Example scenario_alpha_limit_one :
  let q1 := fst (TaskMethods.safeStartsWith Reference.searchParam_safeParse
                   (JStr "Alpha") "description" Task find_all) in
  let q2 := fst (TaskMethods.safeLimit (Reference.limit_safeParse 100)
                   (of_Z 1) q1) in
  exec q2 Reference.scenario =
    [Reference.task "64b7f0c2a1d3e4f5a6b7c8d1" "Alpha task"]
  /\ exec q1 Reference.scenario =
    [Reference.task "64b7f0c2a1d3e4f5a6b7c8d1" "Alpha task";
     Reference.task "64b7f0c2a1d3e4f5a6b7c8d2" "Alpha beta"].
Proof. split; vm_compute; reflexivity. Qed.

(** P7: [applyStaticMethods(schema, [{name:'a', fn: validFn},
    {name: 123, fn: validFn}])]. *)
Lemma applyStaticMethods_stops_at_first_invalid_witness :
  let a := JObj [("name", JStr "a"); ("fn", Reference.validFn)] in
  let bad := JObj [("name", of_Z 123); ("fn", Reference.validFn)] in
  let late := JObj [("name", JStr "z"); ("fn", Reference.validFn)] in
  applyStaticMethods (Some TaskSchema) (JArr [a; bad; late]) =
    (Some (install "a" Reference.validFn TaskSchema),
     Throw (InvalidParamTypeError "method" "string" "number"))
  /\ own (statics (install "a" Reference.validFn TaskSchema)) !! "a"
     = Some Reference.validFn
  /\ own (statics (install "a" Reference.validFn TaskSchema)) !! "z" = None.
Proof.
  cbv zeta.
  destruct (applyStaticMethods_stops_at_first_invalid TaskSchema
              [JObj [("name", JStr "a"); ("fn", Reference.validFn)]]
              [JObj [("name", JStr "z"); ("fn", Reference.validFn)]]
              (JObj [("name", of_Z 123); ("fn", Reference.validFn)]))
    as [e [He Hrun]].
  - repeat constructor. exists ("a", Reference.validFn). reflexivity.
  - reflexivity.
  - split; [| split; reflexivity].
    change (applyStaticMethods (Some TaskSchema)
              (JArr ([JObj [("name", JStr "a"); ("fn", Reference.validFn)]] ++
                     JObj [("name", of_Z 123); ("fn", Reference.validFn)]
                     :: [JObj [("name", JStr "z"); ("fn", Reference.validFn)]])) =
            (Some (install "a" Reference.validFn TaskSchema),
             Throw (InvalidParamTypeError "method" "string" "number"))).
    rewrite Hrun. cbn in He. injection He as <-. reflexivity.
Defined.

(** An entry [{name: 'a', fn: 42}]: the error says [string], the type of
    the name, while the offending [fn] is a number. *)
Lemma applyStaticMethods_reports_type_of_name_witness :
  snd (applyStaticMethods (Some TaskSchema)
         (JArr [JObj [("name", JStr "a"); ("fn", of_Z 42)]])) =
    Throw (InvalidParamTypeError "method" "function" "string")
  /\ typeof (of_Z 42) = "number".
Proof.
  split; [| reflexivity].
  apply (applyStaticMethods_reports_type_of_name TaskSchema [] []
           (JObj [("name", JStr "a"); ("fn", of_Z 42)]) "a" (of_Z 42)).
  - constructor.
  - reflexivity.
  - discriminate.
Defined.

(** P1 on three steps that do not commute, the second asynchronous. *)
Lemma create_runs_steps_in_order_witness :
  create (JStr "v")
    [Reference.mark "1"; Reference.mark_later "2"; Reference.mark "3"]
    (fun v => res_status_json (of_Z 200) v) [] =
    ([StepCall 0 (JStr "v"); StepCall 1 (JStr "v1"); StepCall 2 (JStr "v12");
      TerminalCall (JStr "v123"); Sent (of_Z 200) (JStr "v123")],
     Fulfilled Res).
Proof.
  exact (proj1 (create_runs_steps_in_order (JStr "v")
                  [Reference.mark "1"; Reference.mark_later "2"; Reference.mark "3"]
                  (fun v => res_status_json (of_Z 200) v) [] (JStr "v123")
                  eq_refl)).
Defined.

(** P2 on three steps, the second throwing. *)
Lemma create_short_circuits_witness :
  create (JStr "v")
    [Reference.mark "1"; Reference.failing (Thrown (JStr "boom")); Reference.mark "3"]
    (fun v => res_status_json (of_Z 200) v) [] =
    ([StepCall 0 (JStr "v"); StepCall 1 (JStr "v1")],
     Rejected (Thrown (JStr "boom"))).
Proof.
  exact (proj1 (create_short_circuits (JStr "v")
                  [Reference.mark "1"; Reference.failing (Thrown (JStr "boom"));
                   Reference.mark "3"]
                  (fun v => res_status_json (of_Z 200) v) [] 1
                  (Reference.failing (Thrown (JStr "boom"))) (JStr "v1")
                  (Thrown (JStr "boom")) eq_refl eq_refl eq_refl)).
Defined.

(** The same with a step that returns a rejected promise. *)
Example create_rejecting_step :
  create (JStr "v")
    [Reference.rejecting (Thrown (JStr "late")); Reference.mark "2"]
    (fun v => res_status_json (of_Z 200) v) [] =
    ([StepCall 0 (JStr "v")], Rejected (Thrown (JStr "late"))).
Proof. reflexivity. Qed.

(** P3: with no step the terminal consumer gets the initial value. *)
Example create_no_steps :
  create (JStr "v") [] (fun v => res_status_json (of_Z 200) v) [] =
    ([TerminalCall (JStr "v"); Sent (of_Z 200) (JStr "v")], Fulfilled Res).
Proof. reflexivity. Qed.

(** [json] with one callback, and with none. *)
Lemma json_payload_key_witness :
  json {| data := JStr "d"; statusCode := JUndefined; success := JUndefined;
          pipeCallBacks := Callbacks [Reference.mark "!"] |} [] =
    ([StepCall 0 (JStr "d"); TerminalCall (JStr "d!");
      Sent (of_Z 200)
        (JObj [("success", JBool true); ("pipeData", JStr "d!");
               ("statusCode", of_Z 200)])],
     Piped (Fulfilled Res))
  /\ json {| data := JStr "d"; statusCode := of_Z 201; success := JUndefined;
             pipeCallBacks := NoCallbacks |} [] =
    ([Sent (of_Z 201)
        (JObj [("success", JBool true); ("data", JStr "d");
               ("statusCode", of_Z 201)])],
     Direct (Normal Res)).
Proof.
  split.
  - apply (proj1 (json_payload_key
                    {| data := JStr "d"; statusCode := JUndefined;
                       success := JUndefined;
                       pipeCallBacks := Callbacks [Reference.mark "!"] |} [])
             [Reference.mark "!"] (JStr "d!")).
    + reflexivity.
    + discriminate.
    + reflexivity.
  - apply (proj1 (proj2 (json_payload_key
                    {| data := JStr "d"; statusCode := of_Z 201;
                       success := JUndefined; pipeCallBacks := NoCallbacks |} []))).
    left. reflexivity.
Defined.

(* ===================================================================== *)
(** ** Further properties of the query methods and the installer *)
(* ===================================================================== *)







(** X4. When [safeLimit(n)] followed by [safeStartsWith(searchParam, key,
    Task)] succeeds on a query, so does the other order, and it leaves the
    same query. *)
Theorem safeLimit_safeStartsWith_commute
    (limit_rule : jsval -> option jsnum) (search_rule : jsval -> option string)
    (n sp : jsval) (key : string) (T : model) (q q' : query) :
  bind (TaskMethods.safeLimit limit_rule n)
    (fun _ => TaskMethods.safeStartsWith search_rule sp key T) q
    = (q', Normal This) ->
  bind (TaskMethods.safeStartsWith search_rule sp key T)
    (fun _ => TaskMethods.safeLimit limit_rule n) q
    = (q', Normal This).
Proof.
  unfold bind, TaskMethods.safeLimit, TaskMethods.safeStartsWith, ret, throw,
    limit, where_.
  destruct (truthy n), (truthy sp); cbn [negb];
    destruct (limit_rule n), (search_rule sp);
    try destruct (has_property key (paths (model_schema T)));
    cbn; intros H; try discriminate H; exact H.
Qed.

Lemma safeLimit_safeStartsWith_commute_witness :
  bind (TaskMethods.safeStartsWith Reference.searchParam_safeParse
          (JStr "Alpha") "description" Task)
    (fun _ => TaskMethods.safeLimit (Reference.limit_safeParse 100) (of_Z 1))
    find_all
  = ({| conditions := {[ "description" := mkRegExp "^Alpha" "i" ]};
        ceiling := Some (Fin (inject_Z 1)) |}, Normal This).
Proof.
  apply (safeLimit_safeStartsWith_commute (Reference.limit_safeParse 100)
           Reference.searchParam_safeParse (of_Z 1) (JStr "Alpha")
           "description" Task find_all).
  vm_compute. reflexivity.
Defined.

Lemma backslash_in_class : escaped_class "\" = true.
Proof. vm_compute. reflexivity. Qed.

(** X5. [escapeRegex] loses nothing: two strings with the same escaped
    form are the same string. *)
Theorem escapeRegex_injective (a b : string) :
  escapeRegex a = escapeRegex b -> a = b.
Proof.
  revert b. induction a as [| c a IH]; intros [| d b]; cbn [escapeRegex].
  - reflexivity.
  - destruct (escaped_class d); discriminate.
  - destruct (escaped_class c); discriminate.
  - destruct (escaped_class c) eqn:Hc, (escaped_class d) eqn:Hd; intros H.
    + injection H as <- H. rewrite (IH b H). reflexivity.
    + injection H as <- _. rewrite backslash_in_class in Hd. discriminate Hd.
    + injection H as -> _. rewrite backslash_in_class in Hc. discriminate Hc.
    + injection H as <- H. rewrite (IH b H). reflexivity.
Qed.

Lemma escapeRegex_injective_witness : "a.b" = "a.b".
Proof.
  apply (escapeRegex_injective "a.b" "a.b"). reflexivity.
Defined.

(* ===================================================================== *)
(** ** Properties of filterFields *)
(* ===================================================================== *)

Lemma upsert_fresh (k : string) (v : jsval) (table : list (string * jsval)) :
  k ∉ table.*1 -> upsert k v table = table ++ [(k, v)].
Proof.
  induction table as [| [k' w] table IH]; intros Hk; [reflexivity |].
  cbn in *. apply not_elem_of_cons in Hk as [Hne Hk].
  destruct (String.eqb_spec k' k) as [-> | _]; [contradiction |].
  rewrite (IH Hk). reflexivity.
Qed.

Lemma fold_upsert_distinct (l acc : list (string * jsval)) :
  NoDup ((acc ++ l).*1) ->
  fold_left (fun table kv => upsert kv.1 kv.2 table) l acc = acc ++ l.
Proof.
  revert acc. induction l as [| [k v] l IH]; intros acc Hnd.
  - rewrite app_nil_r. reflexivity.
  - cbn [fold_left fst snd]. rewrite upsert_fresh.
    + rewrite IH; rewrite <- app_assoc; [reflexivity | exact Hnd].
    + rewrite fmap_app in Hnd. apply NoDup_app in Hnd as (_ & Hdisj & _).
      intros Hin. apply (Hdisj k Hin). cbn. apply list_elem_of_here.
Qed.

(** On pairs with distinct keys [Object.fromEntries] is the table itself. *)
Lemma fromEntries_distinct (l : list (string * jsval)) :
  NoDup l.*1 -> fromEntries l = JObj l.
Proof.
  intros H. unfold fromEntries. rewrite fold_upsert_distinct; [reflexivity | exact H].
Qed.

Lemma filter_keys_distinct (f : string * jsval -> bool) (l : list (string * jsval)) :
  NoDup l.*1 -> NoDup (List.filter f l).*1.
Proof.
  induction l as [| kv l IH]; intros Hnd; [exact Hnd |].
  cbn in *. apply NoDup_cons in Hnd as [Hk Hnd].
  destruct (f kv); [| exact (IH Hnd)].
  cbn. apply NoDup_cons. split; [| exact (IH Hnd)].
  intros Hin. apply Hk.
  apply list_elem_of_fmap in Hin as [x [-> Hx]].
  apply list_elem_of_fmap. exists x. split; [reflexivity |].
  apply list_elem_of_In in Hx. apply filter_In in Hx as [Hx _].
  apply list_elem_of_In, Hx.
Qed.

Lemma filter_twice {A : Type} (f : A -> bool) (l : list A) :
  List.filter f (List.filter f l) = List.filter f l.
Proof.
  induction l as [| x l IH]; [reflexivity |].
  cbn. destruct (f x) eqn:Hx; [| exact IH].
  cbn. rewrite Hx, IH. reflexivity.
Qed.

Lemma assoc_filter_includes (fs : list jsval) (l : list (string * jsval)) (k : string) :
  assoc k (List.filter (fun kv => includes fs kv.1) l) =
  if includes fs k then assoc k l else None.
Proof.
  induction l as [| [k' v] l IH]; [destruct (includes fs k); reflexivity |].
  cbn [List.filter assoc]. change ((k', v).1) with k'.
  destruct (includes fs k') eqn:Hk'; cbn [assoc];
    destruct (String.eqb_spec k k') as [-> | Hne];
    rewrite ?IH, ?Hk'; reflexivity.
Qed.

Lemma filterFields_filtered (f : jsval) (fs : list jsval) (object : jsval) :
  object = JUndefined \/ (typeof object = "object" /\ object <> JNull) ->
  NoDup (entries (or_default (JObj []) object)).*1 ->
  filterFields (JArr (f :: fs)) object =
    Returned (JObj (List.filter (fun kv => includes (f :: fs) kv.1)
                      (entries (or_default (JObj []) object)))).
Proof.
  intros Hobj Hnd. unfold filterFields. cbn [or_default isArray negb].
  destruct Hobj as [-> | [Hty Hnn]].
  - cbn. reflexivity.
  - destruct object; try discriminate Hty; try contradiction.
    + cbn [or_default typeof is_null] in *. cbn [String.eqb negb orb].
      rewrite fromEntries_distinct; [reflexivity |].
      apply filter_keys_distinct, Hnd.
    + cbn [or_default typeof is_null] in *. cbn [String.eqb negb orb].
      rewrite fromEntries_distinct; [reflexivity |].
      apply filter_keys_distinct, Hnd.
Qed.

(** X6. On an object with distinct keys and a non-empty field list,
    [filterFields] returns an object that has, under a listed key, what
    the object has under it, and nothing under any other key. *)
Theorem filterFields_lookup (f : jsval) (fs : list jsval)
    (props : list (string * jsval)) :
  NoDup props.*1 ->
  exists out,
    filterFields (JArr (f :: fs)) (JObj props) = Returned (JObj out)
    /\ NoDup out.*1
    /\ forall k, assoc k out =
                 if includes (f :: fs) k then assoc k props else None.
Proof.
  intros Hnd. eexists. split; [| split].
  - apply filterFields_filtered; [right; split; [reflexivity | discriminate] |].
    exact Hnd.
  - apply filter_keys_distinct, Hnd.
  - intros k. apply assoc_filter_includes.
Qed.

Lemma filterFields_lookup_witness :
  exists out,
    filterFields (JArr [JStr "id"; JStr "name"; of_Z 7])
      (JObj [("id", of_Z 1); ("name", JStr "Joseph");
             ("password", JStr "secret"); ("role", JStr "admin")])
    = Returned (JObj out)
    /\ NoDup out.*1
    /\ forall k, assoc k out =
         if includes [JStr "id"; JStr "name"; of_Z 7] k
         then assoc k [("id", of_Z 1); ("name", JStr "Joseph");
                       ("password", JStr "secret"); ("role", JStr "admin")]
         else None.
Proof.
  apply (filterFields_lookup (JStr "id") [JStr "name"; of_Z 7]
           [("id", of_Z 1); ("name", JStr "Joseph");
            ("password", JStr "secret"); ("role", JStr "admin")]).
  cbn. apply (bool_decide_unpack _). vm_compute. exact I.
Defined.

(** X7. Filtering twice with the same fields is filtering once: what
    [filterFields] returns for an object or an array with distinct keys is
    returned unchanged when filtered again. *)
Theorem filterFields_idempotent (fields object r : jsval) :
  NoDup (entries (or_default (JObj []) object)).*1 ->
  filterFields fields object = Returned r ->
  filterFields fields r = Returned r.
Proof.
  intros Hnd Hr.
  assert (Hobj : object = JUndefined \/ (typeof object = "object" /\ object <> JNull)).
  { unfold filterFields in Hr.
    destruct object; cbn in Hr; auto;
      try (destruct (isArray (or_default (JArr []) fields)); discriminate Hr);
      right; split; try reflexivity; discriminate. }
  assert (Hfs : exists fs, or_default (JArr []) fields = JArr fs).
  { unfold filterFields in Hr.
    destruct (or_default (JArr []) fields); try discriminate Hr. eauto. }
  destruct Hfs as [fs Hfs].
  assert (Hsame : forall o, filterFields fields o = filterFields (JArr fs) o).
  { intros o. unfold filterFields. rewrite Hfs. reflexivity. }
  rewrite Hsame in *. destruct fs as [| f fs].
  - assert (Hret : r = or_default (JObj []) object).
    { unfold filterFields in Hr. cbn [or_default isArray negb] in Hr.
      destruct Hobj as [-> | [Hty Hnn]]; [injection Hr as <-; reflexivity |].
      destruct object; try discriminate Hty; try contradiction;
        injection Hr as <-; reflexivity. }
    subst r. destruct Hobj as [-> | [Hty Hnn]]; [reflexivity |].
    destruct object; try discriminate Hty; try contradiction; reflexivity.
  - rewrite (filterFields_filtered f fs object Hobj Hnd) in Hr.
    injection Hr as <-.
    rewrite filterFields_filtered.
    + cbn [or_default entries]. rewrite filter_twice. reflexivity.
    + right. split; [reflexivity | discriminate].
    + cbn [or_default entries]. apply filter_keys_distinct, Hnd.
Qed.

Lemma filterFields_idempotent_witness :
  filterFields (JArr [JStr "0"; JStr "2"])
    (JObj [("0", JStr "a"); ("2", JStr "c")])
  = Returned (JObj [("0", JStr "a"); ("2", JStr "c")]).
Proof.
  apply (filterFields_idempotent (JArr [JStr "0"; JStr "2"])
           (JArr [JStr "a"; JStr "b"; JStr "c"])).
  - cbn. apply (bool_decide_unpack _). vm_compute. exact I.
  - vm_compute. reflexivity.
Defined.

(** X8. [filterFields] returns exactly when the fields are an array (or
    left out) and the object is an object or an array (or left out); a
    [null] object, a primitive, or fields that are no array make it throw.
    With an empty field list it returns the object as it is. *)
Theorem filterFields_returns_iff (fields object : jsval) :
  ((exists r, filterFields fields object = Returned r)
   <-> (fields = JUndefined \/ isArray fields = true)
       /\ (object = JUndefined
           \/ (typeof object = "object" /\ is_null object = false)))
  /\ (filterFields (JArr []) object = Returned (or_default (JObj []) object)
      \/ exists f, filterFields (JArr []) object = Failed f).
Proof.
  split.
  - unfold filterFields. split.
    + intros [r Hr]. destruct fields; cbn in Hr; try discriminate Hr;
        (split; [auto |]);
        destruct object; cbn in Hr; try discriminate Hr; auto.
    + intros [Hf Ho].
      destruct Hf as [-> | Hf]; [| destruct fields; try discriminate Hf];
        (destruct Ho as [-> | [Hty Hnn]];
         [| destruct object; try discriminate Hty; try discriminate Hnn]);
        cbn; try destruct items; try destruct items0; eauto.
  - unfold filterFields. destruct object; cbn; eauto.
Qed.

(* ===================================================================== *)
(** ** Properties of the dependency check and of controllerResolver *)
(* ===================================================================== *)

(** X9. [handleDependencyError] returns exactly when [helpers] has type
    [object] and is no array, [Task] is a function with a truthy
    [findById], and [schemas] has type [object]. The value [null] passes
    for [helpers] and for [schemas], and an array passes for [schemas]. *)
Theorem handleDependencyError_returns_iff
    (helpers : jsval) (T : task_dependency) (schemas : jsval) :
  handleDependencyError helpers T schemas = Returned tt
  <-> typeof helpers = "object" /\ isArray helpers = false
      /\ typeof_task T = "function" /\ truthy (Task_findById T) = true
      /\ typeof schemas = "object".
Proof.
  unfold handleDependencyError. split.
  - destruct (String.eqb_spec (typeof helpers) "object") as [Hh | Hh];
      cbn [negb orb]; [| discriminate].
    destruct (isArray helpers); cbn [orb]; [discriminate |].
    destruct (String.eqb_spec (typeof_task T) "function") as [Ht | Ht];
      cbn [negb orb]; [| discriminate].
    destruct (truthy (Task_findById T)); cbn [negb]; [| discriminate].
    destruct (String.eqb_spec (typeof schemas) "object") as [Hs | Hs];
      cbn [negb]; [| discriminate].
    intros _. repeat split; assumption.
  - intros (Hh & Ha & Ht & Hf & Hs). rewrite Hh, Ha, Ht, Hf, Hs. reflexivity.
Qed.

(** X10. [controllerResolver] injects [helpers] alone, so resolving an
    action of the tasks controller always throws a DependencyError, for
    [helpers] or else for [Task]; no handler is ever returned. *)
Theorem controllerResolver_tasks_never_resolves
    (has_action : tasks_controller -> string -> bool)
    (name action : string) (helpers : jsval) :
  exists dependency message,
    controllerResolver (Some tasks_inject) has_action name action helpers
      = Failed (DependencyError dependency message)
    /\ (dependency = "helpers" \/ dependency = "Task").
Proof.
  unfold controllerResolver, tasks_inject, handleDependencyError.
  cbn [dep_helpers dep_Task dep_schemas typeof_task typeof].
  destruct (negb (String.eqb (typeof helpers) "object") || isArray helpers).
  - do 2 eexists. split; [reflexivity | left; reflexivity].
  - cbn. do 2 eexists. split; [reflexivity | right; reflexivity].
Qed.

(* ===================================================================== *)
(** ** Properties of the function createHandleReturn builds *)
(* ===================================================================== *)

Lemma headersSent_app (t1 t2 : trace) :
  headersSent (t1 ++ t2) = headersSent t1 || headersSent t2.
Proof. unfold headersSent. apply existsb_app. Qed.

Lemma ok_writes (data : jsval) (t : trace) :
  ok data t =
    (t ++ [Sent (of_Z 200) (body (JBool true) "data" data (of_Z 200))],
     Direct (Normal Res)).
Proof. reflexivity. Qed.

Section HandleReturnProperties.

Variable R : Type.
Variable throwNotFound : M trace R.
Variable throwCustom : error -> M trace R.

Local Abbreviation handleReturn :=
  (ControllerUtils.handleReturn R throwNotFound throwCustom).

Lemma handleReturn_answers (data : jsval) (t : trace) :
  headersSent t = false -> truthy data = true ->
  handleReturn (Value data) t =
    (t ++ [Sent (of_Z 200) (body (JBool true) "data" data (of_Z 200))],
     Fulfilled (Answered (Direct (Normal Res)))).
Proof.
  intros Hh Hd. unfold ControllerUtils.handleReturn.
  rewrite Hh. cbn [await]. rewrite Hd. cbn [negb]. rewrite ok_writes.
  reflexivity.
Qed.

Lemma handleReturn_rejected (err : error) (t : trace) :
  headersSent t = false ->
  handleReturn (Promised (Rejected err)) t = recover R throwCustom err t.
Proof.
  intros Hh. unfold ControllerUtils.handleReturn. rewrite Hh. reflexivity.
Qed.

(** X11. On a response that has sent nothing, a truthy value is answered
    with status 200 and the body [{ success: true, data, statusCode: 200 }],
    written once; after that every further call on the same response,
    whatever it is given, writes nothing and calls no error helper. *)
Theorem handleReturn_answers_once (data : jsval) (t : trace) :
  headersSent t = false -> truthy data = true ->
  exists t',
    handleReturn (Value data) t =
      (t', Fulfilled (Answered (Direct (Normal Res))))
    /\ t' = t ++ [Sent (of_Z 200) (body (JBool true) "data" data (of_Z 200))]
    /\ forall later, handleReturn later t' = (t', Fulfilled Skipped).
Proof.
  intros Hh Hd. eexists. split; [apply handleReturn_answers; assumption |].
  split; [reflexivity |].
  intros later. unfold ControllerUtils.handleReturn.
  rewrite headersSent_app. cbn. rewrite orb_true_r. reflexivity.
Qed.

End HandleReturnProperties.

Lemma handleReturn_answers_once_witness :
  exists t',
    ControllerUtils.handleReturn response Samples.throwNotFound Samples.throwCustom
      (Value (JArr [])) [] =
      (t', Fulfilled (Answered (Direct (Normal Res))))
    /\ t' = [] ++ [Sent (of_Z 200) (body (JBool true) "data" (JArr []) (of_Z 200))]
    /\ forall later,
         ControllerUtils.handleReturn response Samples.throwNotFound
           Samples.throwCustom later t' = (t', Fulfilled Skipped).
Proof.
  apply (handleReturn_answers_once response Samples.throwNotFound
           Samples.throwCustom (JArr []) []); reflexivity.
Defined.

(* ===================================================================== *)
(** ** Properties of the tasks controller *)
(* ===================================================================== *)

Section TasksControllerProperties.

Variable isValid : string -> bool.
Variable collection : Type.
Variable lookup : collection -> string -> option document.
Variable limit_rule : jsval -> option jsnum.
Variable search_rule : jsval -> option string.
Variable T : model.
Variable doc_value : document -> jsval.
Variable R : Type.
Variable throwNotFound : M trace R.
Variable throwCustom : error -> M trace R.

Local Abbreviation answer_of :=
  (fun data : jsval =>
     Sent (of_Z 200) (body (JBool true) "data" data (of_Z 200))).

(** X12. [getTaskById(req, res).where({ id })] on a response that has sent
    nothing, documents being truthy values: a malformed id goes to
    [throwCustom] with the BadRequest error and no lookup is made; an
    absent id goes to [throwCustom] with the NotFound error; a present id
    is answered with status 200 and the document as [data]. The helper
    [throwNotFound] takes no part in any of the three. *)
Theorem getTaskById_where_outcomes (id : string) (w : world collection) (t : trace) :
  headersSent t = false ->
  (forall d, truthy (doc_value d) = true) ->
  (isValid id = false ->
     getTaskById_where isValid collection lookup doc_value R throwNotFound
       throwCustom id (w, t) =
     (let (t', p) := recover R throwCustom (BadRequestError "Invalid ID format") t
      in ((w, t'), p)))
  /\ (isValid id = true -> lookup (stored w) id = None ->
        getTaskById_where isValid collection lookup doc_value R throwNotFound
          throwCustom id (w, t) =
        (let (t', p) := recover R throwCustom (NotFoundError "Task not found") t
         in (({| stored := stored w; lookups := lookups w ++ [id] |}, t'), p)))
  /\ (forall d, isValid id = true -> lookup (stored w) id = Some d ->
        getTaskById_where isValid collection lookup doc_value R throwNotFound
          throwCustom id (w, t) =
        (({| stored := stored w; lookups := lookups w ++ [id] |},
          t ++ [answer_of (doc_value d)]),
         Fulfilled (Answered (Direct (Normal Res))))).
Proof.
  intros Hh Hdoc. unfold getTaskById_where, handleTaskReturn. cbn [fst snd].
  split; [| split].
  - intros Hv. rewrite (safeFindById_malformed _ _ _ _ _ Hv).
    rewrite handleReturn_rejected by exact Hh. reflexivity.
  - intros Hv Hn. rewrite (safeFindById_lookup _ _ _ _ _ Hv), Hn.
    rewrite handleReturn_rejected by exact Hh. reflexivity.
  - intros d Hv Hd. rewrite (safeFindById_lookup _ _ _ _ _ Hv), Hd.
    unfold ControllerUtils.handleReturn. rewrite Hh. cbn [await].
    rewrite Hdoc. cbn [negb]. rewrite ok_writes. reflexivity.
Qed.

(** X13. [getAllTasks(req, res).all()] on a response that has sent nothing:
    when the query yields documents, none included, they are answered with
    status 200 as the array [data]; an empty result is an empty array, not
    a not-found answer. *)
Theorem tasks_all_answers_array
    (exec_query : query -> promise (list document))
    (q : query) (t : trace) (docs : list document) :
  headersSent t = false ->
  exec_query q = Fulfilled docs ->
  tasks_all doc_value exec_query R throwNotFound throwCustom (q, t) =
    ((q, t ++ [answer_of (JArr (map doc_value docs))]),
     Fulfilled (Answered (Direct (Normal Res)))).
Proof.
  intros Hh Hq. unfold tasks_all, handleTaskReturn. cbn [fst snd].
  rewrite Hq, handleReturn_answers by (exact Hh || reflexivity).
  reflexivity.
Qed.




End TasksControllerProperties.

Section TasksChainFailure.

Variable limit_rule : jsval -> option jsnum.
Variable search_rule : jsval -> option string.
Variable T : model.
Variable doc_value : document -> jsval.
Variable exec_query : query -> promise (list document).
Variable R : Type.
Variable throwNotFound : M trace R.
Variable throwCustom : error -> M trace R.

(** X15. When [limit(n)] is given a truthy [n] the rule rejects, on a
    response that has sent nothing, it hands the BadRequest error to
    [throwCustom] and returns that promise instead of the builder: the
    chain [.limit(n).startsWith(...).all()] then throws a TypeError at
    [startsWith], and the query is still the one [find({})] gave. *)
Theorem limit_rejected_breaks_chain
    (n sp : jsval) (key : option string) (t : trace) :
  headersSent t = false ->
  truthy n = true -> limit_rule n = None ->
  tasks_limit limit_rule R throwNotFound throwCustom n (find_all, t) =
    (let (t', p) := recover R throwCustom (BadRequestError "Invalid Limit") t in
     ((find_all, t'), Settled p))
  /\ snd (limit_startsWith_all limit_rule search_rule T doc_value exec_query R
            throwNotFound throwCustom n sp key t) =
     Throw (TypeError "startsWith is not a function")
  /\ fst (fst (limit_startsWith_all limit_rule search_rule T doc_value exec_query R
                 throwNotFound throwCustom n sp key t)) = find_all.
Proof.
  intros Hh Hn Hrule.
  unfold limit_startsWith_all, tasks_limit, on_builder, handleTaskReturn.
  cbn [fst snd].
  rewrite (safeLimit_rejected limit_rule n find_all Hn Hrule).
  rewrite handleReturn_rejected by exact Hh.
  destruct (recover R throwCustom (BadRequestError "Invalid Limit") t) as [t' p].
  repeat split.
Qed.

End TasksChainFailure.

(** X12 (witness): the three lookups on the scenario's collection. *)
Lemma getTaskById_where_outcomes_witness :
  let run := getTaskById_where Reference.ObjectId_isValid (list document)
               Reference.findById_exec Samples.doc_value response
               Samples.throwNotFound Samples.throwCustom in
  let w := mkWorld Reference.scenario [] in
  run "not-a-valid-id" (w, []) =
    ((w, [Sent (of_Z 400) (JStr "error")]), Fulfilled (Refused Res))
  /\ run "64b7f0c2a1d3e4f5a6b7c8ff" (w, []) =
    ((mkWorld Reference.scenario ["64b7f0c2a1d3e4f5a6b7c8ff"],
      [Sent (of_Z 404) (JStr "error")]), Fulfilled (Refused Res))
  /\ run "64b7f0c2a1d3e4f5a6b7c8d3" (w, []) =
    ((mkWorld Reference.scenario ["64b7f0c2a1d3e4f5a6b7c8d3"],
      [Sent (of_Z 200)
         (body (JBool true) "data"
            (JObj [("_id", JStr "64b7f0c2a1d3e4f5a6b7c8d3");
                   ("description", JStr "Beta task")]) (of_Z 200))]),
     Fulfilled (Answered (Direct (Normal Res)))).
Proof.
  cbv zeta. split; [| split].
  - apply (getTaskById_where_outcomes Reference.ObjectId_isValid (list document)
             Reference.findById_exec Samples.doc_value response
             Samples.throwNotFound Samples.throwCustom "not-a-valid-id"
             (mkWorld Reference.scenario []) []);
      [reflexivity | intros d; reflexivity | reflexivity].
  - apply (getTaskById_where_outcomes Reference.ObjectId_isValid (list document)
             Reference.findById_exec Samples.doc_value response
             Samples.throwNotFound Samples.throwCustom "64b7f0c2a1d3e4f5a6b7c8ff"
             (mkWorld Reference.scenario []) []);
      [reflexivity | intros d; reflexivity | reflexivity | reflexivity].
  - apply (proj2 (proj2 (getTaskById_where_outcomes Reference.ObjectId_isValid
             (list document) Reference.findById_exec Samples.doc_value response
             Samples.throwNotFound Samples.throwCustom "64b7f0c2a1d3e4f5a6b7c8d3"
             (mkWorld Reference.scenario []) [] eq_refl
             (fun d => eq_refl)))
             (Reference.task "64b7f0c2a1d3e4f5a6b7c8d3" "Beta task"));
      reflexivity.
Defined.

(** X13 (witness): a query that matches nothing is answered with an empty
    array. *)
Lemma tasks_all_answers_array_witness :
  tasks_all Samples.doc_value (Samples.exec_on Reference.scenario) response
    Samples.throwNotFound Samples.throwCustom
    ({| conditions := {[ "description" := mkRegExp "^Zeta" "i" ]};
        ceiling := None |}, []) =
    (({| conditions := {[ "description" := mkRegExp "^Zeta" "i" ]};
         ceiling := None |},
      [] ++ [Sent (of_Z 200) (body (JBool true) "data" (JArr (map Samples.doc_value []))
                                (of_Z 200))]),
     Fulfilled (Answered (Direct (Normal Res)))).
Proof.
  apply (tasks_all_answers_array Samples.doc_value response
           Samples.throwNotFound Samples.throwCustom
           (Samples.exec_on Reference.scenario)).
  - reflexivity.
  - vm_compute. reflexivity.
Defined.


(** X15 (witness): [limit(-1)] in the chain. *)
Lemma limit_rejected_breaks_chain_witness :
  tasks_limit (Reference.limit_safeParse 100) response Samples.throwNotFound
    Samples.throwCustom (of_Z (-1)) (find_all, []) =
    ((find_all, [Sent (of_Z 400) (JStr "error")]), Settled (Fulfilled (Refused Res)))
  /\ snd (limit_startsWith_all (Reference.limit_safeParse 100)
            Reference.searchParam_safeParse Task Samples.doc_value
            (Samples.exec_on Reference.scenario) response
            Samples.throwNotFound Samples.throwCustom
            (of_Z (-1)) (JStr "Alpha") None []) =
     Throw (TypeError "startsWith is not a function")
  /\ fst (fst (limit_startsWith_all (Reference.limit_safeParse 100)
                 Reference.searchParam_safeParse Task Samples.doc_value
                 (Samples.exec_on Reference.scenario) response
                 Samples.throwNotFound Samples.throwCustom
                 (of_Z (-1)) (JStr "Alpha") None [])) = find_all.
Proof.
  apply (limit_rejected_breaks_chain (Reference.limit_safeParse 100)
           Reference.searchParam_safeParse Task Samples.doc_value
           (Samples.exec_on Reference.scenario) response
           Samples.throwNotFound Samples.throwCustom
           (of_Z (-1)) (JStr "Alpha") None []); reflexivity.
Defined.

(* ===================================================================== *)
(** ** Properties of handleLogin *)
(* ===================================================================== *)

Section HandleLoginProperties.

Variable user_safeParse : jsval -> option (string * string).
Variable findOne : string -> promise (option user_record).
Variable compare : string -> string -> promise bool.
Variable sign : jsval -> completion string.

Local Abbreviation handleLogin :=
  (Auth.handleLogin user_safeParse findOne compare sign).

Lemma response_jwt_missing (token : string) (w : list auth_event) :
  response_jwt token w = (w, Throw (TypeError "response.jwt is not a function")).
Proof. reflexivity. Qed.

(** X16. Whatever the request body and whatever the validator, the user
    store, the password check and the signer do, [handleLogin] ends by
    calling [next] with an error, exactly once, and its promise fulfils
    with [undefined]; it signs at most one token and never gives an answer
    through [response.jwt]. *)
Theorem handleLogin_always_forwards (userInput : jsval) (w : list auth_event) :
  exists signed err,
    handleLogin userInput w = (w ++ signed ++ [NextCalled err], Fulfilled JUndefined)
    /\ (signed = [] \/ exists payload, signed = [TokenSigned payload]).
Proof.
  unfold Auth.handleLogin, handleLogin_try, throw.
  destruct (negb (String.eqb (typeof userInput) "object")).
  { exists [], (InvalidParamTypeError "userObject" "object" (typeof userInput)).
    split; [reflexivity | left; reflexivity]. }
  destruct (user_safeParse userInput) as [[email password]|].
  2: { eexists [], _. split; [reflexivity | left; reflexivity]. }
  destruct (findOne email) as [[foundUser|]|e].
  2, 3: eexists [], _; split; [reflexivity | left; reflexivity].
  destruct (compare password (user_password foundUser)) as [[]|e].
  2, 3: eexists [], _; split; [reflexivity | left; reflexivity].
  unfold bind, createJWT.
  destruct (sign (buildPayload (user_id foundUser))) as [token|e].
  - exists [TokenSigned (buildPayload (user_id foundUser))],
      (TypeError "response.jwt is not a function").
    split; [| right; eauto].
    cbv beta iota. rewrite response_jwt_missing, <- app_assoc. reflexivity.
  - eexists [], _. split; [reflexivity | left; reflexivity].
Qed.

(** X17. A login with a body the validator accepts, a user that exists and
    a password that matches signs a token for [{ sub: <user id> }] and then
    fails: [response.jwt] is no function, and the TypeError goes to [next]. *)
Theorem handleLogin_valid_credentials
    (userInput : jsval) (email password token : string) (foundUser : user_record)
    (w : list auth_event) :
  typeof userInput = "object" ->
  user_safeParse userInput = Some (email, password) ->
  findOne email = Fulfilled (Some foundUser) ->
  compare password (user_password foundUser) = Fulfilled true ->
  sign (buildPayload (user_id foundUser)) = Normal token ->
  handleLogin userInput w =
    (w ++ [TokenSigned (JObj [("sub", JStr (user_id foundUser))]);
           NextCalled (TypeError "response.jwt is not a function")],
     Fulfilled JUndefined).
Proof.
  intros Hty Hparse Hfind Hcmp Hsign.
  unfold Auth.handleLogin, handleLogin_try, bind, createJWT.
  rewrite Hty, Hparse, Hfind, Hcmp, Hsign. cbn.
  rewrite <- app_assoc. reflexivity.
Qed.

End HandleLoginProperties.

Lemma handleLogin_valid_credentials_witness :
  Auth.handleLogin Samples.user_safeParse Samples.findOne Samples.compare
    Samples.sign
    (JObj [("email", JStr "ann@example.com"); ("password", JStr "secret1")]) [] =
    ([] ++ [TokenSigned (JObj [("sub", JStr "65fa0c2a1d3e4f5a6b7c8d90")]);
            NextCalled (TypeError "response.jwt is not a function")],
     Fulfilled JUndefined).
Proof.
  apply (handleLogin_valid_credentials Samples.user_safeParse Samples.findOne
           Samples.compare Samples.sign
           (JObj [("email", JStr "ann@example.com"); ("password", JStr "secret1")])
           "ann@example.com" "secret1" "token"
           {| user_id := "65fa0c2a1d3e4f5a6b7c8d90"; user_password := "secret1" |}
           []); reflexivity.
Defined.
